(** * Camera-alert SMS relay: the notification delivery pipeline

    A shallow embedding of the delivery pipeline of
    [twilio_camera_relay.py] (event normalisation, quiet hours, rate
    limiting, batching) and of the gateway manager of
    [camera-notification-bridge/src/sms_gateway.py], with the properties
    the specification states about them.

    Conventions.
    - A [datetime] is the number of microseconds since an arbitrary origin
      of the local naive calendar ([Z]); [timedelta] arithmetic is integer
      arithmetic on it, and [datetime.time()] is the remainder modulo one day.
    - Text is [string] (a byte string): phone numbers, keys and clock texts
      are ASCII.
    - Python exceptions are values of [exn]; a computation that may raise
      returns a [result]. *)

From Stdlib Require Import ZArith Ascii String List Bool Lia.
From stdpp Require Import base option list gmap strings pretty.

#[local] Set Warnings "-register-all".
Local Open Scope Z_scope.

(** ** Python values *)

(** What [json] hands to the program, plus [datetime] objects, which the
    program itself puts into events. A JSON object keeps its members in an
    association list; [dict_get] reads the first binding of a key. *)
Inductive value : Type :=
  | VNone
  | VBool (b : bool)
  | VInt (n : Z)
  | VFloat (repr : string)
  | VStr (s : string)
  | VList (l : list value)
  | VDict (d : list (string * value))
  | VDatetime (t : Z).

Definition pydict : Type := list (string * value).

Inductive exn : Type :=
  | AttributeError
  | TypeError
  | KeyError
  | ValueError
  | IndexError.

Inductive result (A : Type) : Type :=
  | Ok (a : A)
  | Raise (e : exn).
Arguments Ok {A} a.
Arguments Raise {A} e.

Definition rbind {A B} (r : result A) (k : A → result B) : result B :=
  match r with
  | Ok a => k a
  | Raise e => Raise e
  end.

Notation "'try!' x := r 'in' k" := (rbind r (fun x => k))
  (at level 10, x name, r at level 100, k at level 200).

(** [key in d] for a dict. *)
Fixpoint dict_mem (k : string) (d : pydict) : bool :=
  match d with
  | [] => false
  | (k', _) :: d' => if String.eqb k k' then true else dict_mem k d'
  end.

(** [d.get(key)] as an option; [d.get(key, default)] is [dict_get_or]. *)
Fixpoint dict_get (k : string) (d : pydict) : option value :=
  match d with
  | [] => None
  | (k', v) :: d' => if String.eqb k k' then Some v else dict_get k d'
  end.

Definition dict_get_or (k : string) (default : value) (d : pydict) : value :=
  match dict_get k d with
  | Some v => v
  | None => default
  end.

(** [v == s] for a string literal [s]: only the string itself is equal to it. *)
Definition eq_str (v : value) (s : string) : bool :=
  match v with
  | VStr s' => String.eqb s' s
  | _ => false
  end.

(** ** Clock arithmetic *)

Definition us_per_second : Z := 1000000.
Definition us_per_minute : Z := 60 * us_per_second.
Definition us_per_hour : Z := 60 * us_per_minute.
Definition us_per_day : Z := 24 * us_per_hour.

(** [dt.time()], as microseconds since midnight; [datetime.time] values
    compare as (hour, minute, second, microsecond), which is the order of
    these numbers. *)
Definition time_of (dt : Z) : Z := dt mod us_per_day.

Definition is_digit (c : ascii) : bool :=
  let n := nat_of_ascii c in (48 <=? n)%nat && (n <=? 57)%nat.

Definition digit_val (c : ascii) : Z := Z.of_nat (nat_of_ascii c) - 48.

Definition digit_between (lo hi : Z) (c : ascii) : bool :=
  is_digit c && (lo <=? digit_val c) && (digit_val c <=? hi).

(** The minutes group of the pattern that [strptime] builds for ["%M"]:
    [[0-5]\d|\d], alternatives tried in this order. *)
Definition re_minute (s : list ascii) : option (Z * list ascii) :=
  match s with
  | c1 :: c2 :: rest =>
      if digit_between 0 5 c1 && is_digit c2
      then Some (10 * digit_val c1 + digit_val c2, rest)
      else if is_digit c1 then Some (digit_val c1, c2 :: rest) else None
  | [c1] => if is_digit c1 then Some (digit_val c1, []) else None
  | [] => None
  end.

(** What follows the hours group: a colon and the minutes group. *)
Definition re_colon_minute (s : list ascii) : option (Z * list ascii) :=
  match s with
  | c :: rest => if Ascii.eqb c ":"%char then re_minute rest else None
  | [] => None
  end.

(** The whole pattern for ["%H:%M"]: hours are [2[0-3]|[0-1]\d|\d]; the
    matcher backtracks to the one-digit alternative when the rest does not
    match after a two-digit one. *)
Definition re_hour_minute (s : list ascii) : option (Z * Z * list ascii) :=
  let one_digit :=
    match s with
    | c1 :: rest =>
        if is_digit c1
        then match re_colon_minute rest with
             | Some (m, rest') => Some (digit_val c1, m, rest')
             | None => None
             end
        else None
    | [] => None
    end in
  match s with
  | c1 :: c2 :: rest =>
      if (Ascii.eqb c1 "2"%char && digit_between 0 3 c2)
         || (digit_between 0 1 c1 && is_digit c2)
      then match re_colon_minute rest with
           | Some (m, rest') =>
               Some (10 * digit_val c1 + digit_val c2, m, rest')
           | None => one_digit
           end
      else one_digit
  | _ => one_digit
  end.

(** [datetime.strptime(s, '%H:%M').time()]: [ValueError] when the pattern
    does not match at the start of the text or text remains after it. *)
Definition strptime_HM (s : string) : result Z :=
  match re_hour_minute (list_ascii_of_string s) with
  | Some (h, m, []) => Ok (h * us_per_hour + m * us_per_minute)
  | _ => Raise ValueError
  end.

(** ** Canonical events *)

(** The dict that [_normalize_event] returns always has these five keys. *)
Record Event : Type := mkEvent {
  camera_id : value;
  event_type : value;
  timestamp : value;
  priority : value;
  raw : value
}.

(** ** Quiet hours ([CameraEventProcessor._in_quiet_hours]) *)

(** The [notifications.quiet_hours] section of the configuration; a field is
    [None] when the key is absent. *)
Record QuietHours : Type := mkQuietHours {
  qh_enabled : option bool;
  qh_start : option string;
  qh_end : option string
}.

Definition require_key {A} (o : option A) : result A :=
  match o with
  | Some a => Ok a
  | None => Raise KeyError
  end.

Definition _in_quiet_hours (quiet_config : QuietHours) (dt_now : Z)
    : result bool :=
  if negb (default false (qh_enabled quiet_config)) then Ok false
  else
    let now := time_of dt_now in
    try! s := require_key (qh_start quiet_config) in
    try! start := strptime_HM s in
    try! e := require_key (qh_end quiet_config) in
    try! end_ := strptime_HM e in
    if start >? end_
    then Ok ((start <=? now) || (now <=? end_))
    else Ok ((start <=? now) && (now <=? end_)).

(** The test of [process_event]:
    [self._in_quiet_hours() and event.get('priority') != 'high']. *)
Definition quiet_hours_suppresses (quiet_config : QuietHours) (dt_now : Z)
    (event : Event) : result bool :=
  try! quiet := _in_quiet_hours quiet_config dt_now in
  if quiet then Ok (negb (eq_str (priority event) "high")) else Ok false.

(** ** Event normalisation ([CameraEventProcessor._normalize_event]) *)

(** [pat in s] for two strings. *)
Fixpoint contains (pat s : string) : bool :=
  String.prefix pat s ||
  match s with
  | EmptyString => false
  | String _ s' => contains pat s'
  end.

(** [needle in v]: substring of a string, element of a list, key of a dict;
    [TypeError] for a value that is not a container. *)
Definition py_in (needle : string) (v : value) : result bool :=
  match v with
  | VStr s => Ok (contains needle s)
  | VList l => Ok (existsb (fun x => eq_str x needle) l)
  | VDict d => Ok (dict_mem needle d)
  | _ => Raise TypeError
  end.

(** [v[key]] for a string key: only a dict can be indexed by a string. *)
Definition py_getitem (key : string) (v : value) : result value :=
  match v with
  | VDict d => require_key (dict_get key d)
  | _ => Raise TypeError
  end.

(** [v.get(key, default)]: only a dict has the method. *)
Definition py_get (key : string) (default : value) (v : value) : result value :=
  match v with
  | VDict d => Ok (dict_get_or key default d)
  | _ => Raise AttributeError
  end.

Definition code_map : list (string * string) :=
  [ ("VideoMotion", "Motion detected");
    ("VideoLoss", "Video loss");
    ("VideoBlind", "Camera blocked");
    ("AlarmLocal", "Local alarm");
    ("CrossLineDetection", "Line crossed");
    ("CrossRegionDetection", "Region intrusion");
    ("LeftDetection", "Object left");
    ("TakenAwayDetection", "Object removed") ].

Fixpoint assoc_str (k : string) (l : list (string * string)) : option string :=
  match l with
  | [] => None
  | (k', v) :: l' => if String.eqb k k' then Some v else assoc_str k l'
  end.

(** [code_map.get(code, code)]: looking up a list or a dict raises
    [TypeError] (unhashable); a hashable value that is not a string is equal
    to no key of the table. *)
Definition _parse_dahua_code (code : value) : result value :=
  match code with
  | VList _ | VDict _ => Raise TypeError
  | VStr s => Ok (match assoc_str s code_map with
                  | Some label => VStr label
                  | None => code
                  end)
  | _ => Ok code
  end.

Definition high_if (b : bool) : value :=
  if b then VStr "high" else VStr "normal".

(** [now] is what [datetime.now()] returns in the branch taken; the fields
    of each dict display are evaluated in the order they are written. *)
Definition _normalize_event (data : value) (now : Z) : result Event :=
  try! hik := py_in "EventNotificationAlert" data in
  if hik then
    try! alert := py_getitem "EventNotificationAlert" data in
    try! cam := py_get "ipAddress" (VStr "unknown") alert in
    try! ety := py_get "eventType" (VStr "motion") alert in
    try! ts := py_get "dateTime" (VDatetime now) alert in
    try! code := py_get "eventType" VNone alert in
    Ok (mkEvent cam ety ts (high_if (eq_str code "fielddetection")) data)
  else
    try! has_action := py_in "Action" data in
    try! pulse :=
      (if has_action
       then try! a := py_getitem "Action" data in Ok (eq_str a "Pulse")
       else Ok false) in
    if pulse then
      try! dev := py_get "DeviceID" (VStr "unknown") data in
      try! cam := py_get "SerialID" dev data in
      try! code := py_get "Code" (VStr "VideoMotion") data in
      try! ety := _parse_dahua_code code in
      try! code' := py_get "Code" (VStr "") data in
      try! alarm := py_in "Alarm" code' in
      Ok (mkEvent cam ety (VDatetime now) (high_if alarm) data)
    else
      try! has_camera := py_in "camera" data in
      if has_camera then
        try! cam := py_get "camera" (VStr "unknown") data in
        try! ety := py_get "trigger" (VStr "motion") data in
        try! pri := py_get "priority" (VStr "normal") data in
        Ok (mkEvent cam ety (VDatetime now) pri data)
      else
        try! id := py_get "id" (VStr "unknown") data in
        try! cam := py_get "camera_id" id data in
        try! ty := py_get "type" (VStr "motion") data in
        try! ety := py_get "event_type" ty data in
        try! ts := py_get "timestamp" (VDatetime now) data in
        try! pri := py_get "priority" (VStr "normal") data in
        Ok (mkEvent cam ety ts pri data).

(** ** Configuration, collaborators and mutable state *)

(** [notifications.rate_limiting]; [None] is an absent key. *)
Record RateConfig : Type := mkRateConfig {
  rl_enabled : option bool;
  max_per_hour : option Z;
  max_per_camera_per_hour : option Z
}.

(** [notifications.batching]. *)
Record BatchConfig : Type := mkBatchConfig {
  batching_enabled : option bool;
  window_seconds : option Z;
  max_batch_size : option Z
}.

Record Config : Type := mkConfig {
  rate_limiting : RateConfig;
  batching : BatchConfig;
  message_format : option string;
  camera_id_mapping : gmap string string
}.

(** What the pipeline consumes and does not implement. [clock n] is the value
    of the [n]-th call of [datetime.now()]. [sender_result n to body] is what
    the [n]-th call of [TwilioSender.send_sms] returns: that method catches
    what its transport raises and answers with a boolean. [py_str] is [str()]
    and [str_format] is [str.format] with the keyword arguments
    [camera_name], [event_type] and [time]. *)
Record Env : Type := mkEnv {
  config : Config;
  clock : nat → Z;
  sender_result : nat → string → string → bool;
  py_str : value → string;
  str_format : string → string → value → string → result string
}.

(** [config_manager.get('notifications.rate_limiting', {})], the argument of
    every call of [can_send]. *)
Abbreviation rate_config env := (rate_limiting (config env)).

Record Recipient : Type := mkRecipient {
  name : string;
  number : string;
  cameras : list string;
  active : option bool
}.

(** One element of a pending list. *)
Record Notification : Type := mkNotification {
  n_recipient : Recipient;
  n_camera_id : string;
  n_event : Event;
  n_time : Z
}.

Abbreviation batch_key := (string * string)%type.

(** The state of the process: the two dicts of [RateLimiter], the two dicts
    of [NotificationBatcher] ([pending] in insertion order, as Python
    iterates it), how many times the clock was read, the calls of
    [sender.send_sms] made so far, the pauses of the scheduler thread and its
    [running] flag. *)
Record World : Type := mkWorld {
  sent_messages : gmap string (list Z);
  camera_messages : gmap string (gmap string (list Z));
  pending : list (batch_key * list Notification);
  first_event_time : gmap batch_key Z;
  clock_reads : nat;
  outbox : list (string * string);
  slept : list Z;
  running : bool
}.

Definition initial_world : World :=
  mkWorld ∅ ∅ [] ∅ 0 [] [] true.

Definition set_sent_messages (m : gmap string (list Z)) (w : World) : World :=
  mkWorld m (camera_messages w) (pending w) (first_event_time w)
          (clock_reads w) (outbox w) (slept w) (running w).

Definition set_camera_messages (m : gmap string (gmap string (list Z)))
    (w : World) : World :=
  mkWorld (sent_messages w) m (pending w) (first_event_time w)
          (clock_reads w) (outbox w) (slept w) (running w).

Definition set_pending (p : list (batch_key * list Notification))
    (w : World) : World :=
  mkWorld (sent_messages w) (camera_messages w) p (first_event_time w)
          (clock_reads w) (outbox w) (slept w) (running w).

Definition set_first_event_time (m : gmap batch_key Z) (w : World) : World :=
  mkWorld (sent_messages w) (camera_messages w) (pending w) m
          (clock_reads w) (outbox w) (slept w) (running w).

Definition set_clock_reads (n : nat) (w : World) : World :=
  mkWorld (sent_messages w) (camera_messages w) (pending w)
          (first_event_time w) n (outbox w) (slept w) (running w).

Definition set_outbox (o : list (string * string)) (w : World) : World :=
  mkWorld (sent_messages w) (camera_messages w) (pending w)
          (first_event_time w) (clock_reads w) o (slept w) (running w).

Definition set_slept (s : list Z) (w : World) : World :=
  mkWorld (sent_messages w) (camera_messages w) (pending w)
          (first_event_time w) (clock_reads w) (outbox w) s (running w).

(** ** Insertion-ordered dicts *)

Section odict.
Context {K V : Type} `{EqDecision K}.

Fixpoint od_get (k : K) (d : list (K * V)) : option V :=
  match d with
  | [] => None
  | (k', v) :: d' => if decide (k = k') then Some v else od_get k d'
  end.

(** [d[k] = v]: a key already present keeps its place, a new key goes last. *)
Fixpoint od_set (k : K) (v : V) (d : list (K * V)) : list (K * V) :=
  match d with
  | [] => [(k, v)]
  | (k', v') :: d' =>
      if decide (k = k') then (k, v) :: d' else (k', v') :: od_set k v d'
  end.

(** [del d[k]], for a key that is present: nothing stays bound to [k]. *)
Fixpoint od_del (k : K) (d : list (K * V)) : list (K * V) :=
  match d with
  | [] => []
  | (k', v') :: d' =>
      if decide (k = k') then od_del k d' else (k', v') :: od_del k d'
  end.

Definition od_keys (d : list (K * V)) : list K := d.*1.
End odict.

(** ** Computations: state that survives an exception *)

Definition M (A : Type) : Type := World → result A * World.

#[global] Instance M_ret : MRet M := λ A a w, (Ok a, w).

#[global] Instance M_bind : MBind M := λ A B f m w,
  match m w with
  | (Ok a, w') => f a w'
  | (Raise e, w') => (Raise e, w')
  end.

Definition ret {A} (a : A) : M A := mret a.
Definition gets {A} (f : World → A) : M A := λ w, (Ok (f w), w).
Definition modify (f : World → World) : M unit := λ w, (Ok tt, f w).
Definition lift {A} (r : result A) : M A := λ w, (r, w).

(** [for x in l: body(x)] *)
Fixpoint for_each {A} (body : A → M unit) (l : list A) : M unit :=
  match l with
  | [] => ret tt
  | x :: l' => body x ;; for_each body l'
  end.

Section pipeline.
Context (env : Env).

Definition datetime_now : M Z := λ w,
  (Ok (clock env (clock_reads w)), set_clock_reads (S (clock_reads w)) w).

(** [self.sender.send_sms(to, body)] *)
Definition sender_send_sms (to body : string) : M bool := λ w,
  (Ok (sender_result env (length (outbox w)) to body),
   set_outbox (outbox w ++ [(to, body)]) w).

Definition time_sleep (seconds : Z) : M unit :=
  modify (λ w, set_slept (slept w ++ [seconds]) w).

(** *** [RateLimiter] *)

(** [[ts for ts in l if ts > hour_ago]] *)
Definition prune (hour_ago : Z) (l : list Z) : list Z :=
  filter (λ ts, hour_ago < ts) l.

Definition can_send (recipient camera_id : string) (config : RateConfig)
    : M bool :=
  if negb (default true (rl_enabled config)) then ret true
  else
    now ← datetime_now;
    let hour_ago := now - us_per_hour in
    modify (λ w, set_sent_messages
      (<[recipient := prune hour_ago (sent_messages w !!! recipient)]>
         (sent_messages w)) w) ;;
    modify (λ w,
      let inner := camera_messages w !!! recipient in
      set_camera_messages
        (<[recipient :=
             <[camera_id := prune hour_ago (inner !!! camera_id)]> inner]>
           (camera_messages w)) w) ;;
    n_global ← gets (λ w, length (sent_messages w !!! recipient));
    if default 30 (max_per_hour config) <=? Z.of_nat n_global then ret false
    else
      n_camera ← gets (λ w,
        length ((camera_messages w !!! recipient) !!! camera_id));
      if default 10 (max_per_camera_per_hour config) <=? Z.of_nat n_camera
      then ret false
      else ret true.

Definition record_sent (recipient camera_id : string) : M unit :=
  now ← datetime_now;
  modify (λ w, set_sent_messages
    (<[recipient := (sent_messages w !!! recipient) ++ [now]]>
       (sent_messages w)) w) ;;
  modify (λ w,
    let inner := camera_messages w !!! recipient in
    set_camera_messages
      (<[recipient := <[camera_id := (inner !!! camera_id) ++ [now]]> inner]>
         (camera_messages w)) w).
End pipeline.

(** ** Message texts *)

Definition nl : string := String "010" "".

Definition two_digits (n : Z) : string :=
  if n <? 10 then "0" +:+ pretty n else pretty n.

(** [dt.strftime('%H:%M')] *)
Definition strftime_HM (dt : Z) : string :=
  two_digits (time_of dt / us_per_hour) +:+ ":" +:+
  two_digits ((time_of dt / us_per_minute) mod 60).

(** [v.strftime('%H:%M')]: only a [datetime] has the method. *)
Definition py_strftime_HM (v : value) : result string :=
  match v with
  | VDatetime dt => Ok (strftime_HM dt)
  | _ => Raise AttributeError
  end.

(** [events[-3:]] *)
Definition last_three {A} (l : list A) : list A := drop (length l - 3) l.

Definition default_message_format : string :=
  "{camera_name}: {event_type} at {time}".

Section batcher.
Context (env : Env).

(** *** [NotificationBatcher._format_message]

    Every event comes from [_normalize_event] and has all its keys, so the
    defaults of [event.get] are never used; the default of
    [event.get('timestamp', datetime.now())] is still evaluated, which
    reads the clock. *)
Fixpoint format_lines (message : string) (events : list Event) : M string :=
  match events with
  | [] => ret message
  | event :: rest =>
      _ ← datetime_now env;
      time_str ← lift (py_strftime_HM (timestamp event));
      format_lines
        (message +:+ "• " +:+ py_str env (event_type event) +:+ " at "
                 +:+ time_str +:+ nl)
        rest
  end.

Definition _format_message (events : list Event) (camera_id : string)
    : M string :=
  let camera_name :=
    default camera_id (camera_id_mapping (config env) !! camera_id) in
  match events with
  | [event] =>
      let template :=
        default default_message_format (message_format (config env)) in
      now ← datetime_now env;
      lift (str_format env template camera_name (event_type event)
              (strftime_HM now))
  | _ =>
      format_lines
        ("🚨 " +:+ camera_name +:+ ": " +:+ pretty (length events)
               +:+ " alerts" +:+ nl)
        (last_three events)
  end.

(** *** [NotificationBatcher._send_immediate] *)
Definition _send_immediate (recipient : Recipient) (camera_id : string)
    (event : Event) : M unit :=
  ok ← can_send env (number recipient) camera_id (rate_config env);
  if negb ok then ret tt
  else
    message ← _format_message [event] camera_id;
    sent ← sender_send_sms env (number recipient) message;
    if (sent : bool) then record_sent env (number recipient) camera_id
    else ret tt.

(** *** [NotificationBatcher.add_notification] *)
Definition add_notification (recipient : Recipient) (camera_id : string)
    (event : Event) : M unit :=
  if negb (default true (batching_enabled (batching (config env))))
  then _send_immediate recipient camera_id event
  else
    let key := (number recipient, camera_id) in
    known ← gets (λ w, bool_decide (is_Some (first_event_time w !! key)));
    (if negb known
     then now ← datetime_now env;
          modify (λ w, set_first_event_time
                         (<[key := now]> (first_event_time w)) w)
     else ret tt) ;;
    now ← datetime_now env;
    modify (λ w,
      set_pending
        (od_set key
           (default [] (od_get key (pending w))
              ++ [mkNotification recipient camera_id event now])
           (pending w)) w).

(** *** [NotificationBatcher._send_batch] *)
Definition _send_batch (key : batch_key) : M unit :=
  notifications ← gets (λ w, default [] (od_get key (pending w)));
  match notifications return M unit with
  | [] => ret tt
  | _ :: _ =>
      let '(recipient_number, camera_id) := key in
      ok ← can_send env recipient_number camera_id (rate_config env);
      if negb ok then ret tt
      else
        message ← _format_message (n_event <$> notifications) camera_id;
        sent ← sender_send_sms env recipient_number message;
        (if (sent : bool) then record_sent env recipient_number camera_id
         else ret tt) ;;
        present ← gets (λ w, bool_decide (is_Some (od_get key (pending w))));
        (if (present : bool)
         then modify (λ w, set_pending (od_del key (pending w)) w)
         else lift (Raise KeyError)) ;;
        modify (λ w, set_first_event_time (delete key (first_event_time w)) w)
  end.

(** *** One pass of the loop of [NotificationBatcher._process_batches]

    [elapsed >= window] compares a number of seconds; on microsecond
    counts it is [window * 10^6 <= now - first_time]. *)
Definition flush_if_due (window max_batch now : Z) (key : batch_key)
    : M unit :=
  batch ← gets (λ w, od_get key (pending w));
  match batch return M unit with
  | None | Some [] => ret tt
  | Some (n :: ns) =>
      first_time ← gets (λ w, first_event_time w !! key);
      match first_time return M unit with
      | None => ret tt
      | Some first_time =>
          if (window * us_per_second <=? now - first_time)
             || (max_batch <=? Z.of_nat (length (n :: ns)))
          then _send_batch key
          else ret tt
      end
  end.

Definition process_batches_pass : M unit :=
  let window := default 300 (window_seconds (batching (config env))) in
  let max_batch := default 5 (max_batch_size (batching (config env))) in
  now ← datetime_now env;
  keys ← gets (λ w, od_keys (pending w));
  for_each (flush_if_due window max_batch now) keys.

(** [while self.running: time.sleep(10); ...], for at most [fuel] passes. *)
Fixpoint _process_batches (fuel : nat) : M unit :=
  match fuel with
  | O => ret tt
  | S fuel' =>
      go ← gets running;
      if (go : bool)
      then time_sleep 10 ;; process_batches_pass ;; _process_batches fuel'
      else ret tt
  end.
End batcher.

(** ** The gateway manager ([sms_gateway.py]) *)

Module Gateway.

(** What a call of a gateway's [send_sms] does: it returns a boolean or
    raises an [Exception]. *)
Inductive outcome : Type :=
  | Returns (b : bool)
  | Raises.

(** A direct gateway ([GSMModemGateway] or [TwilioGateway]), through the
    one method the manager uses. *)
Record SMSGateway : Type := mkSMSGateway {
  gateway_send_sms : string → string → outcome
}.

(** [EmailToSMSGateway]: the carrier table, and whether handing a message
    for an address to the SMTP server goes through ([false]: an exception
    inside the [try] block). *)
Record EmailToSMSGateway : Type := mkEmailToSMSGateway {
  carriers : gmap string string;
  smtp_delivers : string → string → bool
}.

Record SMSGatewayManager : Type := mkSMSGatewayManager {
  gateways : list SMSGateway;
  email_gateway : option EmailToSMSGateway
}.

(** What reaches the outside, in order: a call of the [i]-th direct
    gateway, a call of the email gateway, a message given to SMTP. *)
Inductive effect : Type :=
  | DirectCall (i : nat) (recipient message : string)
  | EmailCall (recipient message : string) (carrier : option string)
  | SmtpSend (to_email message : string).

(** Truth value of an optional string: [None] and [''] are false. *)
Definition truthy (carrier : option string) : bool :=
  match carrier with
  | None | Some EmptyString => false
  | Some _ => true
  end.

(** [''.join(filter(str.isdigit, recipient))] *)
Definition digits_of (recipient : string) : string :=
  string_of_list_ascii (List.filter is_digit (list_ascii_of_string recipient)).

(** The two lines that drop the country code. *)
Definition strip_country_code (digits : string) : string :=
  match digits with
  | String c rest =>
      if (String.length digits =? 11)%nat && Ascii.eqb c "1"%char
      then rest else digits
  | EmptyString => digits
  end.

(** [EmailToSMSGateway.send_sms] *)
Definition email_send_sms (g : EmailToSMSGateway)
    (recipient message : string) (carrier : option string)
    (trace : list effect) : bool * list effect :=
  match carrier with
  | Some c =>
      if negb (truthy carrier) then (false, trace)
      else match carriers g !! c with
           | None => (false, trace)
           | Some domain =>
               let digits := strip_country_code (digits_of recipient) in
               let to_email := digits +:+ domain in
               (smtp_delivers g to_email message,
                trace ++ [SmtpSend to_email message])
           end
  | None => (false, trace)
  end.

(** The loop of [SMSGatewayManager.send_sms] over [self.gateways], from
    the [i]-th gateway on. *)
Fixpoint try_gateways (gs : list SMSGateway) (i : nat)
    (recipient message : string) (trace : list effect)
    : bool * list effect :=
  match gs with
  | [] => (false, trace)
  | g :: gs' =>
      let trace' := trace ++ [DirectCall i recipient message] in
      match gateway_send_sms g recipient message with
      | Returns true => (true, trace')
      | Returns false | Raises =>
          try_gateways gs' (S i) recipient message trace'
      end
  end.

(** [SMSGatewayManager.send_sms] *)
Definition send_sms (mgr : SMSGatewayManager) (recipient message : string)
    (carrier : option string) (trace : list effect) : bool * list effect :=
  let '(sent, trace1) :=
    try_gateways (gateways mgr) 0 recipient message trace in
  if sent then (true, trace1)
  else
    match email_gateway mgr with
    | Some g =>
        if truthy carrier
        then email_send_sms g recipient message carrier
               (trace1 ++ [EmailCall recipient message carrier])
        else (false, trace1)
    | None => (false, trace1)
    end.

End Gateway.

(** ** Vocabulary of the statements *)

(** The four payload dialects, in the order [_normalize_event] tests them. *)
Inductive dialect : Type :=
  | Hikvision
  | Dahua
  | BlueIris
  | Generic.

Definition dialect_of (d : pydict) : dialect :=
  if dict_mem "EventNotificationAlert" d then Hikvision
  else if eq_str (dict_get_or "Action" VNone d) "Pulse" then Dahua
  else if dict_mem "camera" d then BlueIris
  else Generic.

Definition is_priority (v : value) : Prop :=
  v = VStr "normal" ∨ v = VStr "high".

(** An optional member that is absent or a string. *)
Definition absent_or_string (o : option value) : Prop :=
  match o with
  | None | Some (VStr _) => True
  | Some _ => False
  end.

(** The window test of [_in_quiet_hours], as a proposition. *)
Definition in_window (start end_ now : Z) : Prop :=
  if start >? end_ then start <= now ∨ now <= end_
  else start <= now ∧ now <= end_.

Definition night_quiet_hours : QuietHours :=
  mkQuietHours (Some true) (Some "22:00") (Some "07:00").

Definition motion_event (pri : string) : Event :=
  mkEvent (VStr "cam1") (VStr "motion") (VDatetime 0) (VStr pri) (VDict []).

(** Sample payloads. *)
Definition hikvision_payload : pydict :=
  [("EventNotificationAlert",
    VDict [("ipAddress", VStr "192.168.1.100");
           ("eventType", VStr "fielddetection");
           ("dateTime", VStr "2024-05-01T23:30:00Z")])].

Definition dahua_payload : pydict :=
  [("Action", VStr "Pulse"); ("Code", VStr "AlarmLocal");
   ("SerialID", VStr "4K0123")].

(** Vocabulary for the gateway manager. *)
Module GatewaySpec.
Import Gateway.

(** The gateway did not report success: it returned [False] or raised. *)
Definition fails (recipient message : string) (g : SMSGateway) : Prop :=
  gateway_send_sms g recipient message = Returns false
  ∨ gateway_send_sms g recipient message = Raises.

(** Calls of the direct gateways number [i], [i+1], ..., [i+n-1]. *)
Definition direct_calls (recipient message : string) (i n : nat)
    : list effect :=
  (λ j, DirectCall j recipient message) <$> seq i n.

Definition is_direct_call (e : effect) : Prop :=
  match e with
  | DirectCall _ _ _ => True
  | _ => False
  end.

Definition is_email_call (e : effect) : Prop :=
  match e with
  | EmailCall _ _ _ => True
  | _ => False
  end.

Definition gw_ok : SMSGateway := mkSMSGateway (λ _ _, Returns true).
Definition gw_down : SMSGateway := mkSMSGateway (λ _ _, Returns false).
Definition gw_broken : SMSGateway := mkSMSGateway (λ _ _, Raises).

Definition carrier_email : EmailToSMSGateway :=
  mkEmailToSMSGateway {[ "att" := "@txt.att.net" ]} (λ _ _, true).

(** The same table behind an SMTP server that refuses every message. *)
Definition smtp_refuses : EmailToSMSGateway :=
  mkEmailToSMSGateway {[ "att" := "@txt.att.net" ]} (λ _ _, false).
End GatewaySpec.

(** Vocabulary for the rate limiter: the stored windows, and the two ways
    the limiter changes them. *)
Definition global_window (w : World) (recipient : string) : list Z :=
  sent_messages w !!! recipient.

Definition camera_window (w : World) (recipient camera_id : string) : list Z :=
  (camera_messages w !!! recipient) !!! camera_id.

Definition tick_clock (w : World) : World :=
  set_clock_reads (S (clock_reads w)) w.

Definition prune_world (hour_ago : Z) (recipient camera_id : string)
    (w : World) : World :=
  set_camera_messages
    (<[recipient :=
         <[camera_id := filter (λ ts, hour_ago < ts)
                          (camera_window w recipient camera_id)]>
           (camera_messages w !!! recipient)]> (camera_messages w))
    (set_sent_messages
       (<[recipient := filter (λ ts, hour_ago < ts)
                         (global_window w recipient)]> (sent_messages w)) w).

Definition append_world (now : Z) (recipient camera_id : string)
    (w : World) : World :=
  set_camera_messages
    (<[recipient :=
         <[camera_id := camera_window w recipient camera_id ++ [now]]>
           (camera_messages w !!! recipient)]> (camera_messages w))
    (set_sent_messages
       (<[recipient := global_window w recipient ++ [now]]>
          (sent_messages w)) w).

(** Number of stored timestamps later than [hour_ago]. *)
Definition recent (hour_ago : Z) (l : list Z) : Z :=
  Z.of_nat (length (filter (λ ts, hour_ago < ts) l)).

Definition limit_global (env : Env) : Z :=
  default 30 (max_per_hour (rate_config env)).

Definition limit_camera (env : Env) : Z :=
  default 10 (max_per_camera_per_hour (rate_config env)).

Definition limiter_enabled (env : Env) : bool :=
  default true (rl_enabled (rate_config env)).

(** Sample collaborators: a clock that returns the listed values in turn, a
    sender whose successive calls return the listed booleans, and plain
    renderings of values and of the single-event text. *)
Definition clock_of (times : list Z) : nat → Z :=
  λ n, default 0 (times !! n).

Definition sample_str (v : value) : string :=
  match v with
  | VStr s => s
  | _ => "?"
  end.

Definition sample_env (cfg : Config) (times : list Z) (sends : list bool)
    : Env :=
  mkEnv cfg (clock_of times)
    (λ n _ _, default false (sends !! n))
    sample_str
    (λ _ camera_name ev time,
       Ok (camera_name +:+ ": " +:+ sample_str ev +:+ " at " +:+ time)).

Definition sample_config (rate : RateConfig) (batch : BatchConfig) : Config :=
  mkConfig rate batch None ∅.

Definition minutes (n : Z) : Z := n * us_per_minute.

(** Three sends an hour, the clock at 0, 10, 20, 30 and 65 minutes. *)
Definition env_three_an_hour : Env :=
  sample_env
    (sample_config (mkRateConfig None (Some 3) None)
                   (mkBatchConfig None None None))
    [minutes 0; minutes 10; minutes 20; minutes 30; minutes 65] [].

(** The same ceiling with rate limiting switched off. *)
Definition env_limiter_off : Env :=
  sample_env
    (sample_config (mkRateConfig (Some false) (Some 3) None)
                   (mkBatchConfig None None None))
    [minutes 0; minutes 10; minutes 20; minutes 30] [].

(** One send an hour, the second clock value exactly one hour after the
    first. *)
Definition env_one_an_hour : Env :=
  sample_env
    (sample_config (mkRateConfig (Some true) (Some 1) None)
                   (mkBatchConfig None None None))
    [minutes 0; minutes 60] [].

Definition after_three_sends (env : Env) (r c : string) : World :=
  (record_sent env r c
     (record_sent env r c (record_sent env r c initial_world).2).2).2.

(** Vocabulary for the batcher. *)

(** A dict has one binding per key. *)
Definition pending_wf (w : World) : Prop := NoDup (od_keys (pending w)).

(** The invariant of the batcher: a key has a first-event time exactly when
    its pending list exists and is not empty. *)
Definition batcher_inv (w : World) : Prop :=
  ∀ key : batch_key,
    is_Some (first_event_time w !! key)
    ↔ ∃ l, od_get key (pending w) = Some l ∧ l ≠ [].

Definition window_us (env : Env) : Z :=
  default 300 (window_seconds (batching (config env))) * us_per_second.

Definition batch_ceiling (env : Env) : Z :=
  default 5 (max_batch_size (batching (config env))).

Definition batching_on (env : Env) : bool :=
  default true (batching_enabled (batching (config env))).

(** The test under which a pass that read the clock as [now] flushes [key]
    in state [w]. *)
Definition flush_due (env : Env) (now : Z) (w : World) (key : batch_key)
    : bool :=
  match od_get key (pending w), first_event_time w !! key with
  | Some (n :: ns), Some first_time =>
      (window_us env <=? now - first_time)
      || (batch_ceiling env <=? Z.of_nat (length (n :: ns)))
  | _, _ => false
  end.

(** A computation that leaves one component of the state as it is, however
    it ends. *)
Definition preserves {A X} (f : World → X) (m : M A) : Prop :=
  ∀ w, f (m w).2 = f w.

(** Requests served one after the other: each call of [add_notification]
    ends, normally or not, before the next begins. *)
Fixpoint add_all (env : Env) (adds : list (Recipient * string * Event))
    (w : World) : World :=
  match adds with
  | [] => w
  | (recipient, camera, event) :: rest =>
      add_all env rest (add_notification env recipient camera event w).2
  end.

(** The notifications that [adds] contribute to [key], with the times at
    which they were enqueued left aside. *)
Definition for_key (key : batch_key)
    (adds : list (Recipient * string * Event))
    : list (Recipient * string * Event) :=
  filter (λ a, (number a.1.1, a.1.2) = key) adds.

Definition without_time (n : Notification) : Recipient * string * Event :=
  (n_recipient n, n_camera_id n, n_event n).

(** A component of the state that does not depend on the clock counter. *)
Definition clock_blind {X} (f : World → X) : Prop :=
  ∀ n w, f (set_clock_reads n w) = f w.

(** The state after [_send_batch] handed [message] to the sender in state
    [w2], and told the limiter if the sender reported success. *)
Definition after_send (env : Env) (key : batch_key) (message : string)
    (w2 : World) : World :=
  let w3 := set_outbox (outbox w2 ++ [(key.1, message)]) w2 in
  if sender_result env (length (outbox w2)) key.1 message
  then append_world (clock env (clock_reads w3)) key.1 key.2 (tick_clock w3)
  else w3.

(** The state after the two [del] statements of [_send_batch]. *)
Definition cleared (key : batch_key) (w : World) : World :=
  set_first_event_time (delete key (first_event_time w))
    (set_pending (od_del key (pending w)) w).

(** The state after [add_notification] enqueued an event. *)
Definition enqueued (env : Env) (recipient : Recipient) (camera : string)
    (event : Event) (w : World) : World :=
  let key := (number recipient, camera) in
  let w1 :=
    match first_event_time w !! key with
    | Some _ => w
    | None =>
        set_first_event_time
          (<[key := clock env (clock_reads w)]> (first_event_time w))
          (tick_clock w)
    end in
  set_pending
    (od_set key
       (default [] (od_get key (pending w1))
          ++ [mkNotification recipient camera event
                (clock env (clock_reads w1))])
       (pending w1))
    (tick_clock w1).

(** Sample data for the batcher. *)
Definition primary_contact : Recipient :=
  mkRecipient "Primary Contact" "+15550100" ["all"] (Some true).

Definition seconds (n : Z) : Z := n * us_per_second.

(** The event that [_normalize_event] makes of [hikvision_payload]. *)
Definition hikvision_event : Event :=
  mkEvent (VStr "192.168.1.100") (VStr "fielddetection")
    (VStr "2024-05-01T23:30:00Z") (VStr "high") (VDict hikvision_payload).

Definition front_door_key : batch_key := ("+15550100", "192.168.1.100").

Definition default_config : Config :=
  sample_config (mkRateConfig None None None) (mkBatchConfig None None None).

(** Two Hikvision events for one camera within two seconds, and a pass of
    the scheduler five minutes later; the sender works. *)
Definition env_two_alerts : Env :=
  sample_env default_config
    [seconds 0; seconds 1; seconds 2; seconds 301; seconds 302; seconds 303;
     seconds 304; seconds 305]
    [true].

Definition two_alerts_pending : World :=
  add_all env_two_alerts
    [(primary_contact, "192.168.1.100", hikvision_event);
     (primary_contact, "192.168.1.100", hikvision_event)]
    initial_world.

(** Five events for one camera within a second, and a pass ten seconds
    later. *)
Definition env_five_events : Env :=
  sample_env default_config
    [seconds 0; seconds 0; seconds 0; seconds 0; seconds 1; seconds 1;
     seconds 10; seconds 10; seconds 10; seconds 10; seconds 10; seconds 11]
    [true].

Definition cam1_key : batch_key := ("+15550100", "cam1").

Definition five_events_pending : World :=
  add_all env_five_events
    (replicate 5 (primary_contact, "cam1", motion_event "normal"))
    initial_world.

(** One send an hour: a send recorded at 0:00, two events at 0:01 and 0:02,
    and passes of the scheduler from 0:06 on. *)
Definition env_one_send_an_hour (batch : option bool) : Env :=
  sample_env
    (sample_config (mkRateConfig None (Some 1) None)
                   (mkBatchConfig batch None None))
    [minutes 0; minutes 1; minutes 1; minutes 2; minutes 6; minutes 7;
     minutes 8]
    [true; true].

Definition one_sent_two_pending : World :=
  add_all (env_one_send_an_hour None)
    [(primary_contact, "cam1", motion_event "normal");
     (primary_contact, "cam1", motion_event "normal")]
    (record_sent (env_one_send_an_hour None) "+15550100" "cam1"
       initial_world).2.

Definition one_sent : World :=
  (record_sent (env_one_send_an_hour (Some false)) "+15550100" "cam1"
     initial_world).2.

(** The states of the batcher that the process goes through: requests and
    passes of the scheduler, each under the lock of the batcher and so one
    at a time, and the pauses of the scheduler. *)
Inductive reachable (env : Env) : World → Prop :=
  | reachable_initial : reachable env initial_world
  | reachable_add (r : Recipient) (c : string) (e : Event) (w : World) :
      reachable env w → reachable env (add_notification env r c e w).2
  | reachable_pass (w : World) :
      reachable env w → reachable env (process_batches_pass env w).2
  | reachable_sleep (seconds : Z) (w : World) :
      reachable env w → reachable env (time_sleep seconds w).2.


(** Sample data for passes of the scheduler that meet two keys. *)
Definition cam1_payload : pydict :=
  [("camera_id", VStr "cam1"); ("event_type", VStr "motion")].

(** The event that [_normalize_event] makes of [cam1_payload] at [now]. *)
Definition cam1_event (now : Z) : Event :=
  mkEvent (VStr "cam1") (VStr "motion") (VDatetime now) (VStr "normal")
    (VDict cam1_payload).

(** Two Hikvision events for the front door at 0:00:00 and 0:00:01, one
    event for [cam1] at 0:00:03, and a pass of the scheduler at 0:05:10,
    when both keys are older than the window; the sender works. *)
Definition env_two_keys : Env :=
  sample_env default_config
    [seconds 0; seconds 0; seconds 1; seconds 3; seconds 3; seconds 310;
     seconds 310; seconds 310; seconds 310; seconds 310]
    [true; true].

Definition two_keys_pending : World :=
  add_all env_two_keys
    [(primary_contact, "192.168.1.100", hikvision_event);
     (primary_contact, "192.168.1.100", hikvision_event);
     (primary_contact, "cam1", cam1_event (seconds 3))]
    initial_world.

(** One alert an hour for each camera. An alert for [cam1] was sent at
    0:00:00; two Hikvision events for the front door arrive at 0:54:56 and
    0:54:57 and five events for [cam1] at 0:59:50; the scheduler passes at
    0:59:55 and at 1:00:05; the sender works. *)
Definition env_camera_ceiling : Env :=
  sample_env
    (sample_config (mkRateConfig None None (Some 1))
                   (mkBatchConfig None None None))
    [seconds 0; seconds 3296; seconds 3296; seconds 3297;
     seconds 3590; seconds 3590; seconds 3590; seconds 3590; seconds 3590;
     seconds 3590;
     seconds 3595; seconds 3595;
     seconds 3605; seconds 3605; seconds 3605; seconds 3605; seconds 3605;
     seconds 3605]
    [true; true].

Definition refused_key_pending : World :=
  add_all env_camera_ceiling
    ([(primary_contact, "192.168.1.100", hikvision_event);
      (primary_contact, "192.168.1.100", hikvision_event)]
     ++ replicate 5 (primary_contact, "cam1", cam1_event (seconds 3590)))
    (record_sent env_camera_ceiling "+15550100" "cam1" initial_world).2.

(** The state after the pass of 0:59:55. *)
Definition refused_key_kept : World :=
  (process_batches_pass env_camera_ceiling refused_key_pending).2.

(** * Properties *)

(** ** Quiet hours *)

Example strptime_evening : strptime_HM "22:00" = Ok (22 * us_per_hour).
Proof. reflexivity. Qed.

Example strptime_short :
  strptime_HM "7:5" = Ok (7 * us_per_hour + 5 * us_per_minute).
Proof. reflexivity. Qed.

Example strptime_hour_24 : strptime_HM "24:00" = Raise ValueError.
Proof. reflexivity. Qed.

Example strptime_minute_60 : strptime_HM "07:60" = Raise ValueError.
Proof. reflexivity. Qed.

Example strftime_half_past_eleven :
  strftime_HM (23 * us_per_hour + 30 * us_per_minute + 59 * us_per_second)
  = "23:30".
Proof. reflexivity. Qed.

Example strftime_morning : strftime_HM (us_per_day + 7 * us_per_hour) = "07:00".
Proof. reflexivity. Qed.

Lemma eq_str_true (v : value) (s : string) : eq_str v s = true ↔ v = VStr s.
Proof.
  destruct v; simpl; try (split; [discriminate | congruence]).
  rewrite String.eqb_eq. split; congruence.
Qed.

Lemma eq_str_false (v : value) (s : string) : eq_str v s = false ↔ v ≠ VStr s.
Proof.
  rewrite <- eq_str_true. destruct (eq_str v s); split; congruence.
Qed.

Lemma in_quiet_hours_enabled (qc : QuietHours) (dt_now : Z) (s e : string)
    (start end_ : Z) :
  default false (qh_enabled qc) = true →
  qh_start qc = Some s → qh_end qc = Some e →
  strptime_HM s = Ok start → strptime_HM e = Ok end_ →
  ∃ b, _in_quiet_hours qc dt_now = Ok b
       ∧ (b = true ↔ in_window start end_ (time_of dt_now)).
Proof.
  intros Hen Hs He Hps Hpe. unfold _in_quiet_hours, in_window.
  rewrite Hen, Hs, He. simpl. rewrite Hps. simpl. rewrite Hpe. simpl.
  destruct (start >? end_); eexists; split; try reflexivity.
  - rewrite orb_true_iff, !Z.leb_le. tauto.
  - rewrite andb_true_iff, !Z.leb_le. tauto.
Qed.

(** C1. Quiet hours switched off suppress nothing; an event of priority
    ['high'] is never suppressed; with quiet hours on and a configured window
    [start]..[end], an event of another priority is suppressed exactly when
    the time of day is in the window: [now >= start or now <= end] when
    [start > end], [start <= now <= end] otherwise. *)
Theorem quiet_hours_policy (qc : QuietHours) (dt_now : Z) (event : Event) :
  (default false (qh_enabled qc) = false →
     quiet_hours_suppresses qc dt_now event = Ok false)
  ∧ (priority event = VStr "high" →
     quiet_hours_suppresses qc dt_now event ≠ Ok true)
  ∧ (∀ s e start end_,
       default false (qh_enabled qc) = true →
       qh_start qc = Some s → qh_end qc = Some e →
       strptime_HM s = Ok start → strptime_HM e = Ok end_ →
       ∃ b, quiet_hours_suppresses qc dt_now event = Ok b
            ∧ (priority event = VStr "high" → b = false)
            ∧ (priority event ≠ VStr "high" →
               (b = true ↔ in_window start end_ (time_of dt_now)))).
Proof.
  split; [|split].
  - intros Hoff. unfold quiet_hours_suppresses, _in_quiet_hours.
    rewrite Hoff. reflexivity.
  - intros Hhigh. unfold quiet_hours_suppresses.
    destruct (_in_quiet_hours qc dt_now) as [[|]|]; simpl; try discriminate.
    rewrite Hhigh. discriminate.
  - intros s e start end_ Hen Hs He Hps Hpe.
    destruct (in_quiet_hours_enabled qc dt_now s e start end_ Hen Hs He Hps Hpe)
      as (q & Hq & Hiff).
    unfold quiet_hours_suppresses. rewrite Hq. simpl.
    destruct q.
    + eexists; split; [reflexivity|]. split.
      * intros ->. reflexivity.
      * intros Hne. apply eq_str_false in Hne. rewrite Hne. simpl.
        split; [intros _; apply Hiff; reflexivity | reflexivity].
    + exists false. split; [reflexivity|]. split; [reflexivity|].
      intros _. rewrite <- Hiff. reflexivity.
Qed.

(** Window 22:00 to 07:00, the clock at 23:30: a ['normal'] event is
    suppressed. *)
Lemma quiet_hours_policy_witness :
  quiet_hours_suppresses night_quiet_hours
    (23 * us_per_hour + 30 * us_per_minute) (motion_event "normal") = Ok true.
Proof.
  destruct (quiet_hours_policy night_quiet_hours
              (23 * us_per_hour + 30 * us_per_minute) (motion_event "normal"))
    as (_ & _ & H).
  destruct (H "22:00" "07:00" (22 * us_per_hour) (7 * us_per_hour)
              eq_refl eq_refl eq_refl eq_refl eq_refl)
    as (b & Hb & _ & Hiff).
  rewrite Hb. f_equal. apply Hiff.
  - discriminate.
  - vm_compute. left. discriminate.
Defined.

(** ** Event normalisation *)

Lemma dict_mem_get (k : string) (d : pydict) :
  dict_mem k d = bool_decide (is_Some (dict_get k d)).
Proof.
  induction d as [|[k' v] d IH]; simpl; [reflexivity|].
  destruct (String.eqb k k'); [reflexivity | exact IH].
Qed.

Lemma high_if_priority (b : bool) : is_priority (high_if b).
Proof. destruct b; [right | left]; reflexivity. Qed.

Lemma high_if_high (b : bool) : high_if b = VStr "high" ↔ b = true.
Proof. destruct b; simpl; split; (reflexivity || discriminate). Qed.

(** C7, as the code has it. For a JSON object [d]: a Hikvision payload whose
    wrapper is an object, a Dahua payload whose [Code] is absent or a string,
    and every Blue Iris or generic payload are normalised to an event with the
    five fields, [raw] being the payload. The camera identifier is the
    payload's member as it is, ['unknown'] only when the member is absent.
    The priority of a Hikvision or Dahua event is ['normal'] or ['high'];
    that of a Blue Iris or generic event is the payload's [priority] member
    as it is, ['normal'] when absent. *)
Theorem normalize_event_shapes (d : pydict) (now : Z) :
  match dialect_of d with
  | Hikvision =>
      ∀ alert, dict_get "EventNotificationAlert" d = Some (VDict alert) →
      ∃ ev, _normalize_event (VDict d) now = Ok ev
        ∧ raw ev = VDict d
        ∧ camera_id ev = dict_get_or "ipAddress" (VStr "unknown") alert
        ∧ event_type ev = dict_get_or "eventType" (VStr "motion") alert
        ∧ timestamp ev = dict_get_or "dateTime" (VDatetime now) alert
        ∧ is_priority (priority ev)
        ∧ (priority ev = VStr "high"
           ↔ dict_get "eventType" alert = Some (VStr "fielddetection"))
  | Dahua =>
      absent_or_string (dict_get "Code" d) →
      ∃ ev, _normalize_event (VDict d) now = Ok ev
        ∧ raw ev = VDict d
        ∧ camera_id ev
          = dict_get_or "SerialID" (dict_get_or "DeviceID" (VStr "unknown") d) d
        ∧ timestamp ev = VDatetime now
        ∧ is_priority (priority ev)
        ∧ (priority ev = VStr "high"
           ↔ ∃ code, dict_get "Code" d = Some (VStr code)
                     ∧ contains "Alarm" code = true)
  | BlueIris =>
      ∃ ev, _normalize_event (VDict d) now = Ok ev
        ∧ raw ev = VDict d
        ∧ camera_id ev = dict_get_or "camera" (VStr "unknown") d
        ∧ event_type ev = dict_get_or "trigger" (VStr "motion") d
        ∧ timestamp ev = VDatetime now
        ∧ priority ev = dict_get_or "priority" (VStr "normal") d
  | Generic =>
      ∃ ev, _normalize_event (VDict d) now = Ok ev
        ∧ raw ev = VDict d
        ∧ camera_id ev
          = dict_get_or "camera_id" (dict_get_or "id" (VStr "unknown") d) d
        ∧ event_type ev
          = dict_get_or "event_type" (dict_get_or "type" (VStr "motion") d) d
        ∧ timestamp ev = dict_get_or "timestamp" (VDatetime now) d
        ∧ priority ev = dict_get_or "priority" (VStr "normal") d
  end.
Proof.
  unfold dialect_of, _normalize_event. simpl.
  destruct (dict_mem "EventNotificationAlert" d) eqn:Hhik.
  { intros alert Halert. simpl. rewrite Halert. simpl.
    eexists. split; [reflexivity|]. simpl.
    repeat split; try apply high_if_priority.
    - intros H. apply high_if_high, eq_str_true in H.
      unfold dict_get_or in H. destruct (dict_get "eventType" alert); congruence.
    - intros H. apply high_if_high, eq_str_true.
      unfold dict_get_or. rewrite H. reflexivity. }
  assert (Hpulse :
    (try! pulse := (if dict_mem "Action" d
                    then try! a := require_key (dict_get "Action" d)
                         in Ok (eq_str a "Pulse")
                    else Ok false) in Ok pulse)
    = Ok (eq_str (dict_get_or "Action" VNone d) "Pulse")).
  { unfold dict_get_or. rewrite dict_mem_get.
    destruct (dict_get "Action" d) eqn:Ha; reflexivity. }
  destruct (if dict_mem "Action" d
            then try! a := require_key (dict_get "Action" d)
                 in Ok (eq_str a "Pulse")
            else Ok false) as [pulse|] eqn:Hp; simpl in Hpulse;
    [|discriminate].
  injection Hpulse as ->. simpl.
  destruct (eq_str (dict_get_or "Action" VNone d) "Pulse") eqn:Hdahua.
  { intros Hcode.
    destruct (dict_get "Code" d) as [[| | | |code| | |]|] eqn:Hc;
      simpl in Hcode; try contradiction;
      match goal with
      | |- context [dict_get_or "Code" _ d] =>
          unfold dict_get_or; rewrite !Hc; simpl
      end.
    - eexists. split; [reflexivity|]. simpl.
      repeat split; try apply high_if_priority.
      + intros H. apply high_if_high in H. eauto.
      + intros (code' & Heq & Hal). injection Heq as <-.
        apply high_if_high. exact Hal.
    - eexists. split; [reflexivity|]. simpl.
      repeat split.
      + left. reflexivity.
      + intros H. discriminate.
      + intros (code' & Heq & _). discriminate. }
  destruct (dict_mem "camera" d) eqn:Hcam; simpl.
  - eexists. split; [reflexivity|]. simpl. repeat split.
  - eexists. split; [reflexivity|]. simpl. repeat split.
Qed.

Lemma normalize_event_shapes_witness :
  (∃ ev, _normalize_event (VDict hikvision_payload) 0 = Ok ev
         ∧ camera_id ev = VStr "192.168.1.100"
         ∧ priority ev = VStr "high")
  ∧ (∃ ev, _normalize_event (VDict dahua_payload) 0 = Ok ev
           ∧ is_priority (priority ev)).
Proof.
  split.
  - pose proof (normalize_event_shapes hikvision_payload 0) as H.
    change (dialect_of hikvision_payload) with Hikvision in H.
    destruct (H _ eq_refl) as (ev & Hev & _ & Hcam & _ & _ & _ & Hhigh).
    exists ev. split; [exact Hev|]. split; [exact Hcam|].
    apply Hhigh. reflexivity.
  - pose proof (normalize_event_shapes dahua_payload 0) as H.
    change (dialect_of dahua_payload) with Dahua in H.
    destruct (H I) as (ev & Hev & _ & _ & _ & Hpri & _).
    exists ev. split; [exact Hev | exact Hpri].
Defined.

(** Where C7 fails as it is written: a wrapper that is not an object makes
    [_normalize_event] raise, and a Blue Iris payload gets its empty camera
    name and its priority ['low'] copied into the event. *)
Lemma normalize_event_counterexample :
  _normalize_event (VDict [("EventNotificationAlert", VStr "x")]) 0
    = Raise AttributeError
  ∧ ∃ ev, _normalize_event
            (VDict [("camera", VStr ""); ("priority", VStr "low")]) 0 = Ok ev
          ∧ camera_id ev = VStr ""
          ∧ ¬ is_priority (priority ev).
Proof.
  split; [reflexivity|].
  eexists. split; [reflexivity|]. split; [reflexivity|].
  simpl. intros [H|H]; discriminate.
Qed.

Example normalize_dahua_code_not_string :
  _normalize_event (VDict [("Action", VStr "Pulse"); ("Code", VInt 7)]) 0
    = Raise TypeError.
Proof. reflexivity. Qed.

Example normalize_not_an_object :
  _normalize_event (VList []) 0 = Raise AttributeError.
Proof. reflexivity. Qed.

(** ** The gateway manager *)

Module GatewayProofs.
Import Gateway GatewaySpec.

Lemma direct_calls_snoc (r m : string) (i n : nat) :
  direct_calls r m i (S n)
  = DirectCall i r m :: direct_calls r m (S i) n.
Proof. reflexivity. Qed.

Lemma try_gateways_first_success (pre post : list SMSGateway)
    (g : SMSGateway) (i : nat) (r m : string) (tr : list effect) :
  Forall (fails r m) pre →
  gateway_send_sms g r m = Returns true →
  try_gateways (pre ++ g :: post) i r m tr
  = (true, tr ++ direct_calls r m i (S (length pre))).
Proof.
  intros Hpre Hg. revert i tr.
  induction Hpre as [|g' pre Hg' _ IH]; intros i tr; simpl.
  - rewrite Hg. reflexivity.
  - rewrite direct_calls_snoc.
    destruct Hg' as [-> | ->]; rewrite IH, <- app_assoc; reflexivity.
Qed.

Lemma try_gateways_all_fail (gs : list SMSGateway) (i : nat) (r m : string)
    (tr : list effect) :
  Forall (fails r m) gs →
  try_gateways gs i r m tr = (false, tr ++ direct_calls r m i (length gs)).
Proof.
  intros Hgs. revert i tr.
  induction Hgs as [|g gs Hg _ IH]; intros i tr; simpl.
  - rewrite app_nil_r. reflexivity.
  - rewrite direct_calls_snoc.
    destruct Hg as [-> | ->]; rewrite IH, <- app_assoc; reflexivity.
Qed.

(** Either some gateway is the first to succeed, or all of them fail. *)
Lemma first_success_or_all_fail (r m : string) (gs : list SMSGateway) :
  (∃ pre g post, gs = pre ++ g :: post ∧ Forall (fails r m) pre
                 ∧ gateway_send_sms g r m = Returns true)
  ∨ Forall (fails r m) gs.
Proof.
  induction gs as [|g gs IH].
  - right. constructor.
  - destruct (gateway_send_sms g r m) as [[|]|] eqn:Hg.
    + left. exists [], g, gs. repeat split; [constructor | exact Hg].
    + destruct IH as [(pre & g' & post & -> & Hpre & Hg') | Hall].
      * left. exists (g :: pre), g', post.
        repeat split; [constructor; [left; exact Hg | exact Hpre] | exact Hg'].
      * right. constructor; [left; exact Hg | exact Hall].
    + destruct IH as [(pre & g' & post & -> & Hpre & Hg') | Hall].
      * left. exists (g :: pre), g', post.
        repeat split; [constructor; [right; exact Hg | exact Hpre] | exact Hg'].
      * right. constructor; [right; exact Hg | exact Hall].
Qed.

Lemma fails_not_success (r m : string) (g : SMSGateway) :
  fails r m g → gateway_send_sms g r m ≠ Returns true.
Proof. intros [H | H]; rewrite H; discriminate. Qed.

Lemma email_send_sms_trace (g : EmailToSMSGateway) (r m : string)
    (c : option string) (tr : list effect) :
  ∃ rest, (email_send_sms g r m c tr).2 = tr ++ rest
          ∧ Forall (λ e, ¬ is_direct_call e ∧ ¬ is_email_call e) rest.
Proof.
  unfold email_send_sms.
  destruct c as [c|];
    [|exists []; rewrite app_nil_r; split; [reflexivity | constructor]].
  destruct (negb (truthy (Some c)));
    [exists []; rewrite app_nil_r; split; [reflexivity | constructor]|].
  destruct (carriers g !! c);
    [|exists []; rewrite app_nil_r; split; [reflexivity | constructor]].
  eexists. split; [reflexivity|].
  repeat constructor; simpl; tauto.
Qed.

(** The part of [send_sms] after the loop, on its own. *)
Lemma send_sms_all_fail (mgr : SMSGatewayManager) (r m : string)
    (c : option string) (tr : list effect) :
  Forall (fails r m) (gateways mgr) →
  send_sms mgr r m c tr
  = let tr1 := tr ++ direct_calls r m 0 (length (gateways mgr)) in
    match email_gateway mgr with
    | Some g =>
        if truthy c
        then email_send_sms g r m c (tr1 ++ [EmailCall r m c])
        else (false, tr1)
    | None => (false, tr1)
    end.
Proof.
  intros Hall. unfold send_sms.
  rewrite (try_gateways_all_fail _ _ _ _ _ Hall). reflexivity.
Qed.

(** A gateway that fails does not report success, so a list of gateways
    that all fail has none that does. *)
Lemma all_fail_no_success (r m : string) (gs : list SMSGateway) :
  Forall (fails r m) gs →
  ¬ Exists (λ g, gateway_send_sms g r m = Returns true) gs.
Proof.
  intros Hall Hex. apply Exists_exists in Hex.
  destruct Hex as (g & Hin & Hg).
  rewrite Forall_forall in Hall.
  exact (fails_not_success r m g (Hall g Hin) Hg).
Qed.

(** What the email gateway answers when it is called with a carrier. *)
Lemma email_send_sms_true (g : EmailToSMSGateway) (r m : string)
    (c : option string) (tr : list effect) :
  (email_send_sms g r m c tr).1 = true
  ↔ ∃ carrier domain,
      c = Some carrier ∧ carrier ≠ "" ∧ carriers g !! carrier = Some domain
      ∧ smtp_delivers g (strip_country_code (digits_of r) +:+ domain) m = true.
Proof.
  unfold email_send_sms. destruct c as [c|].
  - destruct c as [|a c]; simpl.
    + split; [discriminate|]. intros (? & ? & [= <-] & Hne & _). congruence.
    + destruct (carriers g !! String a c) as [domain|] eqn:Hdom; simpl.
      * split.
        -- intros H. exists (String a c), domain.
           repeat split; [discriminate | exact Hdom | exact H].
        -- intros (? & domain' & [= <-] & _ & Hdom' & H).
           rewrite Hdom in Hdom'. injection Hdom' as <-. exact H.
      * split; [discriminate|].
        intros (? & ? & [= <-] & _ & Hdom' & _).
        rewrite Hdom in Hdom'. discriminate.
  - simpl. split; [discriminate|]. intros (? & ? & H & _). discriminate.
Qed.

(** C8. [send_sms] calls the direct gateways in the order of the list. It
    returns [True] at the first gateway that reports success, after
    calling exactly the gateways up to that one; a gateway that raises
    counts as one that failed. When every direct gateway fails, all of them
    were called, in order, and the result is that of the email gateway,
    called after them, if there is one and a carrier was given, and [False]
    otherwise. So the result is [True] exactly when a direct gateway
    reports success or, with an email gateway and a carrier of its table,
    the SMTP server takes the message. When the result is [False], every
    direct gateway was called, in order, and none reported success, and the
    email gateway was called too if there is one and a carrier was given.
    No exception leaves [send_sms]: it returns a boolean in every case. *)
Theorem send_sms_fallback (mgr : SMSGatewayManager) (r m : string)
    (c : option string) (tr : list effect) :
  (∀ pre g post,
     gateways mgr = pre ++ g :: post →
     Forall (fails r m) pre →
     gateway_send_sms g r m = Returns true →
     send_sms mgr r m c tr
     = (true, tr ++ direct_calls r m 0 (S (length pre))))
  ∧ (Forall (fails r m) (gateways mgr) →
     let tr1 := tr ++ direct_calls r m 0 (length (gateways mgr)) in
     send_sms mgr r m c tr
     = match email_gateway mgr with
       | Some g =>
           if truthy c
           then email_send_sms g r m c (tr1 ++ [EmailCall r m c])
           else (false, tr1)
       | None => (false, tr1)
       end)
  ∧ ((send_sms mgr r m c tr).1 = true
     ↔ Exists (λ g, gateway_send_sms g r m = Returns true) (gateways mgr)
       ∨ ∃ g carrier domain,
           email_gateway mgr = Some g ∧ c = Some carrier ∧ carrier ≠ ""
           ∧ carriers g !! carrier = Some domain
           ∧ smtp_delivers g
               (strip_country_code (digits_of r) +:+ domain) m = true)
  ∧ (∀ tr',
       send_sms mgr r m c tr = (false, tr') →
       Forall (fails r m) (gateways mgr)
       ∧ ∃ rest,
           tr' = tr ++ direct_calls r m 0 (length (gateways mgr)) ++ rest
           ∧ Forall (λ e, ¬ is_direct_call e) rest
           ∧ (is_Some (email_gateway mgr) → truthy c = true →
              Exists is_email_call rest)).
Proof.
  split; [|split; [|split]].
  - intros pre g post Hgs Hpre Hg. unfold send_sms. rewrite Hgs.
    rewrite (try_gateways_first_success _ _ _ _ _ _ _ Hpre Hg). reflexivity.
  - intros Hall tr1. subst tr1. apply send_sms_all_fail, Hall.
  - destruct (first_success_or_all_fail r m (gateways mgr))
      as [(pre & g & post & Hgs & Hpre & Hg) | Hall].
    + unfold send_sms. rewrite Hgs.
      rewrite (try_gateways_first_success _ _ _ _ _ _ _ Hpre Hg). simpl.
      split; [|reflexivity]. intros _. left.
      apply Exists_app. right. constructor. exact Hg.
    + rewrite (send_sms_all_fail _ _ _ _ _ Hall). cbv zeta.
      pose proof (all_fail_no_success r m _ Hall) as Hnone.
      destruct (email_gateway mgr) as [g|].
      * destruct (truthy c) eqn:Hc.
        -- rewrite email_send_sms_true. split.
           ++ intros (carrier & domain & H). right. exists g, carrier, domain.
              split; [reflexivity | exact H].
           ++ intros [H | (g' & carrier & domain & [= <-] & H)];
                [contradiction|].
              exists carrier, domain. exact H.
        -- simpl. split; [discriminate|].
           intros [H | (g' & carrier & domain & _ & -> & Hne & _)];
             [contradiction|].
           destruct carrier; [congruence | discriminate].
      * simpl. split; [discriminate|].
        intros [H | (g' & carrier & domain & H & _)];
          [contradiction | discriminate].
  - intros tr' Hsend.
    destruct (first_success_or_all_fail r m (gateways mgr))
      as [(pre & g & post & Hgs & Hpre & Hg) | Hall].
    + unfold send_sms in Hsend. rewrite Hgs in Hsend.
      rewrite (try_gateways_first_success _ _ _ _ _ _ _ Hpre Hg) in Hsend.
      discriminate.
    + split; [exact Hall|].
      rewrite (send_sms_all_fail _ _ _ _ _ Hall) in Hsend. simpl in Hsend.
      destruct (email_gateway mgr) as [g|].
      * destruct (truthy c).
        -- destruct (email_send_sms_trace g r m c
                       ((tr ++ direct_calls r m 0 (length (gateways mgr)))
                          ++ [EmailCall r m c])) as (rest & Htr & Hrest).
           rewrite Hsend in Htr. simpl in Htr.
           exists (EmailCall r m c :: rest). split; [|split].
           ++ rewrite Htr, <- !app_assoc. reflexivity.
           ++ constructor; [simpl; tauto|].
              eapply Forall_impl; [exact Hrest|]. simpl. tauto.
           ++ intros _ _. constructor. exact I.
        -- injection Hsend as <-. exists []. rewrite app_nil_r.
           split; [reflexivity|]. split; [constructor|].
           intros _ H. discriminate.
      * injection Hsend as <-. exists []. rewrite app_nil_r.
        split; [reflexivity|]. split; [constructor|].
        intros [? H]. discriminate.
Qed.

(** A broken modem, a cloud gateway that is down, then one that works:
    all three are called, in order, the send succeeds and the fourth
    gateway is not called. Without the working ones the send fails after
    both calls, and with an email gateway whose SMTP server refuses the
    message it fails after the email attempt. *)
Lemma send_sms_fallback_witness :
  send_sms (mkSMSGatewayManager [gw_broken; gw_down; gw_ok; gw_ok] None)
    "+15550100" "alert" None []
  = (true, [DirectCall 0 "+15550100" "alert";
            DirectCall 1 "+15550100" "alert";
            DirectCall 2 "+15550100" "alert"])
  ∧ send_sms (mkSMSGatewayManager [gw_broken; gw_down] None)
      "+15550100" "alert" (Some "att") []
    = (false, [DirectCall 0 "+15550100" "alert";
               DirectCall 1 "+15550100" "alert"])
  ∧ send_sms (mkSMSGatewayManager [gw_broken; gw_down] (Some smtp_refuses))
      "+15550100" "alert" (Some "att") []
    = (false, [DirectCall 0 "+15550100" "alert";
               DirectCall 1 "+15550100" "alert";
               EmailCall "+15550100" "alert" (Some "att");
               SmtpSend "15550100@txt.att.net" "alert"]).
Proof.
  assert (Hfail : Forall (fails "+15550100" "alert") [gw_broken; gw_down]).
  { constructor; [right; reflexivity|].
    constructor; [left; reflexivity | constructor]. }
  split; [|split].
  - destruct (send_sms_fallback
                (mkSMSGatewayManager [gw_broken; gw_down; gw_ok; gw_ok] None)
                "+15550100" "alert" None []) as [H _].
    apply (H [gw_broken; gw_down] gw_ok [gw_ok]).
    + reflexivity.
    + exact Hfail.
    + reflexivity.
  - destruct (send_sms_fallback
                (mkSMSGatewayManager [gw_broken; gw_down] None)
                "+15550100" "alert" (Some "att") []) as (_ & H & _).
    exact (H Hfail).
  - destruct (send_sms_fallback
                (mkSMSGatewayManager [gw_broken; gw_down] (Some smtp_refuses))
                "+15550100" "alert" (Some "att") []) as (_ & H & _).
    exact (H Hfail).
Defined.

Lemma direct_calls_no_email (r m : string) (i n : nat) :
  ¬ Exists is_email_call (direct_calls r m i n).
Proof.
  unfold direct_calls. rewrite Exists_exists.
  intros (e & He & Hemail).
  apply list_elem_of_fmap in He.
  destruct He as (j & -> & _).
  exact Hemail.
Qed.

Lemma email_send_sms_no_email_call (g : EmailToSMSGateway) (r m : string)
    (c : option string) (tr : list effect) :
  Exists is_email_call (email_send_sms g r m c tr).2
  ↔ Exists is_email_call tr.
Proof.
  destruct (email_send_sms_trace g r m c tr) as (rest & -> & Hrest).
  rewrite Exists_app. split; [|tauto].
  intros [H | H]; [exact H|].
  apply Exists_exists in H. destruct H as (e & He & Hemail).
  rewrite Forall_forall in Hrest. destruct (Hrest e He) as [_ Hno].
  contradiction.
Qed.

(** C9, as the code has it. The email gateway is called exactly when no
    direct gateway reported success, an email gateway is configured and the
    caller gives a non-empty carrier. Called with a carrier of its table,
    it hands the message to SMTP for the address made of the digits of the
    number followed by the carrier's domain; of eleven digits that begin
    with [1] the first is dropped, other digit strings are kept whole. *)
Theorem email_channel_use (mgr : SMSGatewayManager) (r m : string)
    (c : option string) :
  (Exists is_email_call (send_sms mgr r m c []).2
   ↔ Forall (fails r m) (gateways mgr)
     ∧ is_Some (email_gateway mgr) ∧ truthy c = true)
  ∧ (∀ g carrier domain tr,
       carrier ≠ "" → carriers g !! carrier = Some domain →
       email_send_sms g r m (Some carrier) tr
       = (smtp_delivers g (strip_country_code (digits_of r) +:+ domain) m,
          tr ++ [SmtpSend (strip_country_code (digits_of r) +:+ domain) m]))
  ∧ (∀ rest, String.length rest = 10%nat →
       strip_country_code (String "1" rest) = rest)
  ∧ (∀ digits,
       String.length digits ≠ 11%nat ∨ (∀ rest, digits ≠ String "1" rest) →
       strip_country_code digits = digits).
Proof.
  split; [|split; [|split]].
  - destruct (first_success_or_all_fail r m (gateways mgr))
      as [(pre & g & post & Hgs & Hpre & Hg) | Hall].
    + unfold send_sms.
      rewrite Hgs, (try_gateways_first_success _ _ _ _ _ _ _ Hpre Hg).
      simpl. split.
      * intros H. exfalso. exact (direct_calls_no_email _ _ _ _ H).
      * intros (Hall & _). exfalso.
        apply Forall_app in Hall. destruct Hall as [_ Hall].
        inversion Hall as [|? ? Hfail _]; subst.
        exact (fails_not_success _ _ _ Hfail Hg).
    + rewrite (send_sms_all_fail _ _ _ _ _ Hall). simpl.
      destruct (email_gateway mgr) as [g|] eqn:Hemail.
      * destruct (truthy c) eqn:Hc.
        -- rewrite email_send_sms_no_email_call. split.
           ++ intros _. split; [exact Hall|]. split; [eauto | reflexivity].
           ++ intros _. apply Exists_app. right. constructor. exact I.
        -- simpl. split.
           ++ intros H. exfalso. exact (direct_calls_no_email _ _ _ _ H).
           ++ intros (_ & _ & H). discriminate.
      * simpl. split.
        -- intros H. exfalso. exact (direct_calls_no_email _ _ _ _ H).
        -- intros (_ & [? H] & _). discriminate.
  - intros g carrier domain tr Hne Hdom. unfold email_send_sms.
    destruct carrier as [|a carrier]; [congruence|]. simpl.
    rewrite Hdom. reflexivity.
  - intros rest Hlen. unfold strip_country_code. simpl String.length.
    rewrite Hlen. reflexivity.
  - intros digits H. unfold strip_country_code.
    destruct digits as [|a rest]; [reflexivity|].
    destruct (String.length (String a rest) =? 11)%nat eqn:Hlen;
      [|reflexivity].
    destruct (Ascii.eqb a "1") eqn:Ha; [|reflexivity].
    apply Nat.eqb_eq in Hlen. apply Ascii.eqb_eq in Ha. subst a.
    destruct H as [H | H]; [contradiction | exfalso; exact (H rest eq_refl)].
Qed.

(** Both modems fail, an email gateway is configured and the caller names
    the carrier: the message goes out by email, for the ten-digit address. *)
Lemma email_channel_use_witness :
  send_sms (mkSMSGatewayManager [gw_down; gw_broken] (Some carrier_email))
    "+1 (555) 010-0123" "alert" (Some "att") []
  = (true, [DirectCall 0 "+1 (555) 010-0123" "alert";
            DirectCall 1 "+1 (555) 010-0123" "alert";
            EmailCall "+1 (555) 010-0123" "alert" (Some "att");
            SmtpSend "5550100123@txt.att.net" "alert"]).
Proof.
  pose (mgr := mkSMSGatewayManager [gw_down; gw_broken] (Some carrier_email)).
  assert (Hall : Forall (fails "+1 (555) 010-0123" "alert") (gateways mgr)).
  { constructor; [left; reflexivity|].
    constructor; [right; reflexivity | constructor]. }
  destruct (email_channel_use mgr "+1 (555) 010-0123" "alert" (Some "att"))
    as (Hcalled & Haddr & Hstrip & _).
  fold mgr. rewrite (send_sms_all_fail _ _ _ _ _ Hall).
  cbv beta iota zeta delta [mgr email_gateway truthy].
  rewrite (Haddr carrier_email "att" "@txt.att.net" _ ltac:(discriminate) eq_refl).
  change (digits_of "+1 (555) 010-0123") with (String "1" "5550100123").
  rewrite (Hstrip "5550100123" eq_refl). reflexivity.
Defined.

(** Where C9 fails as it is written: with a carrier given, the email
    gateway is not called once a direct gateway has succeeded; and eleven
    digits that begin with [4] keep their first digit. *)
Lemma email_channel_counterexample :
  send_sms (mkSMSGatewayManager [gw_ok] (Some carrier_email))
    "+15550100123" "alert" (Some "att") []
  = (true, [DirectCall 0 "+15550100123" "alert"])
  ∧ email_send_sms carrier_email "44123456789" "alert" (Some "att") []
    = (true, [SmtpSend "44123456789@txt.att.net" "alert"]).
Proof. split; reflexivity. Qed.

End GatewayProofs.

(** ** The rate limiter *)

Create Rewrite HintDb limiter.

Ltac run :=
  unfold mbind, M_bind, ret, mret, M_ret, gets, modify, lift,
         datetime_now, sender_send_sms, time_sleep; simpl.

Section rate_limiter.
Context (env : Env).

Lemma can_send_disabled (r c : string) (w : World) :
  limiter_enabled env = false →
  can_send env r c (rate_config env) w = (Ok true, w).
Proof.
  unfold limiter_enabled, can_send. intros ->. reflexivity.
Qed.

Lemma can_send_enabled (r c : string) (w : World) :
  limiter_enabled env = true →
  let hour_ago := clock env (clock_reads w) - us_per_hour in
  can_send env r c (rate_config env) w
  = (Ok (bool_decide (recent hour_ago (global_window w r) < limit_global env
                      ∧ recent hour_ago (camera_window w r c)
                        < limit_camera env)),
     prune_world hour_ago r c (tick_clock w)).
Proof.
  unfold limiter_enabled, can_send. intros ->. run.
  unfold prune, recent, limit_global, limit_camera, global_window,
    camera_window, prune_world, tick_clock. simpl.
  rewrite !lookup_total_insert_eq.
  destruct (_ <=? _) eqn:H1.
  - apply Z.leb_le in H1. rewrite bool_decide_eq_false_2 by lia. reflexivity.
  - apply Z.leb_gt in H1. simpl. rewrite !lookup_total_insert_eq.
    destruct (_ <=? _) eqn:H2.
    + apply Z.leb_le in H2. rewrite bool_decide_eq_false_2 by lia.
      reflexivity.
    + apply Z.leb_gt in H2. rewrite bool_decide_eq_true_2 by lia.
      reflexivity.
Qed.

Lemma record_sent_eq (r c : string) (w : World) :
  record_sent env r c w
  = (Ok tt, append_world (clock env (clock_reads w)) r c (tick_clock w)).
Proof. reflexivity. Qed.

Lemma global_window_prune (h : Z) (r c : string) (w : World) :
  global_window (prune_world h r c w) r
  = filter (λ ts, h < ts) (global_window w r).
Proof.
  unfold global_window, prune_world. simpl.
  apply lookup_total_insert_eq.
Qed.

Lemma camera_window_prune (h : Z) (r c : string) (w : World) :
  camera_window (prune_world h r c w) r c
  = filter (λ ts, h < ts) (camera_window w r c).
Proof.
  unfold camera_window, prune_world. simpl.
  rewrite !lookup_total_insert_eq. reflexivity.
Qed.

Lemma global_window_append (t : Z) (r c : string) (w : World) :
  global_window (append_world t r c w) r = global_window w r ++ [t].
Proof.
  unfold global_window, append_world. simpl.
  apply lookup_total_insert_eq.
Qed.

Lemma camera_window_append (t : Z) (r c c' : string) (w : World) :
  camera_window (append_world t r c' w) r c
  = camera_window w r c ++ (if decide (c = c') then [t] else []).
Proof.
  unfold camera_window, append_world. simpl.
  rewrite lookup_total_insert_eq.
  destruct (decide (c = c')) as [->|Hne].
  - rewrite lookup_total_insert_eq. reflexivity.
  - rewrite lookup_total_insert_ne by congruence.
    rewrite app_nil_r. reflexivity.
Qed.

Lemma global_window_tick (r : string) (w : World) :
  global_window (tick_clock w) r = global_window w r.
Proof. reflexivity. Qed.

Lemma camera_window_tick (r c : string) (w : World) :
  camera_window (tick_clock w) r c = camera_window w r c.
Proof. reflexivity. Qed.

Lemma clock_reads_tick (w : World) :
  clock_reads (tick_clock w) = S (clock_reads w).
Proof. reflexivity. Qed.

Lemma clock_reads_append (t : Z) (r c : string) (w : World) :
  clock_reads (append_world t r c w) = clock_reads w.
Proof. reflexivity. Qed.

Lemma clock_reads_prune (h : Z) (r c : string) (w : World) :
  clock_reads (prune_world h r c w) = clock_reads w.
Proof. reflexivity. Qed.

#[local] Hint Rewrite global_window_tick camera_window_tick clock_reads_tick
  clock_reads_append clock_reads_prune global_window_append
  camera_window_append global_window_prune camera_window_prune : limiter.

(** The state after three recorded sends to [r], for cameras [c1], [c2]
    and [c3], from a state with empty windows. *)
Lemma three_sends_windows (r c c1 c2 c3 : string) (w : World) :
  global_window w r = [] → camera_window w r c = [] →
  let n := clock_reads w in
  let w3 := (record_sent env r c3
               (record_sent env r c2 (record_sent env r c1 w).2).2).2 in
  clock_reads w3 = S (S (S n))
  ∧ global_window w3 r
    = [clock env n; clock env (S n); clock env (S (S n))]
  ∧ camera_window w3 r c
    = (if decide (c = c1) then [clock env n] else [])
      ++ (if decide (c = c2) then [clock env (S n)] else [])
      ++ (if decide (c = c3) then [clock env (S (S n))] else []).
Proof.
  intros Hg Hc n w3. subst w3. rewrite !record_sent_eq. cbn [snd].
  autorewrite with limiter. rewrite Hg, Hc, <- !app_assoc.
  repeat split.
Qed.

(** With a ceiling of three an hour: after three recorded sends inside the
    hour the next check is refused; a check made when one of the three is
    an hour old or more is granted. *)
Lemma three_sends_scenario (r c c1 c2 c3 : string) (w : World) :
  limiter_enabled env = true →
  limit_global env = 3 → 3 <= limit_camera env →
  global_window w r = [] → camera_window w r c = [] →
  let n := clock_reads w in
  let t1 := clock env n in
  let t2 := clock env (S n) in
  let t3 := clock env (S (S n)) in
  let now4 := clock env (S (S (S n))) in
  let now5 := clock env (S (S (S (S n)))) in
  let w3 := (record_sent env r c3
               (record_sent env r c2 (record_sent env r c1 w).2).2).2 in
  now4 - us_per_hour < t1 → now4 - us_per_hour < t2 →
  now4 - us_per_hour < t3 →
  (can_send env r c (rate_config env) w3).1 = Ok false
  ∧ (t1 <= now5 - us_per_hour ∨ t2 <= now5 - us_per_hour
     ∨ t3 <= now5 - us_per_hour →
     (can_send env r c (rate_config env)
        (can_send env r c (rate_config env) w3).2).1 = Ok true).
Proof.
  intros Hen Hlim Hcam Hg Hc n t1 t2 t3 now4 now5 w3 H1 H2 H3.
  destruct (three_sends_windows r c c1 c2 c3 w Hg Hc) as (Hreads & Hgw & Hcw).
  fold n w3 t1 t2 t3 in Hreads, Hgw, Hcw.
  rewrite (can_send_enabled r c w3 Hen). rewrite Hreads. fold now4. simpl.
  assert (Hkeep : filter (λ ts, now4 - us_per_hour < ts) [t1; t2; t3]
                  = [t1; t2; t3]).
  { rewrite !filter_cons, filter_nil.
    rewrite !decide_True by assumption. reflexivity. }
  split.
  - f_equal. apply bool_decide_eq_false_2. intros [Hlt _].
    unfold recent in Hlt. rewrite Hgw, Hkeep, Hlim in Hlt. simpl in Hlt. lia.
  - intros Haged. rewrite (can_send_enabled r c _ Hen).
    autorewrite with limiter. rewrite Hreads.
    fold now5. simpl. f_equal. apply bool_decide_eq_true_2.
    rewrite Hgw, Hcw, Hkeep, Hlim. unfold recent.
    assert (Hsome : ¬ (now5 - us_per_hour < t1 ∧ now5 - us_per_hour < t2
                       ∧ now5 - us_per_hour < t3)) by lia.
    clear Haged Hgw Hcw Hkeep Hreads.
    repeat first [ rewrite filter_cons | rewrite filter_nil
                 | case_decide | progress simpl ];
      lia.
Qed.
(** C2, as the code has it. With rate limiting switched off, [can_send]
    answers [True] and touches nothing. With rate limiting on, it drops
    from the window of the recipient and from the window of the recipient
    and camera every timestamp that is not later than one hour before now,
    and answers [True] exactly when the two remaining counts are below
    [max_per_hour] and [max_per_camera_per_hour]. [record_sent] appends
    the time to both windows. With rate limiting on, [max_per_hour = 3] and
    a per-camera ceiling of at least 3: after three recorded sends inside
    the hour the next check is refused, and a check made once one of the
    three is an hour old is granted. *)
Theorem rate_limiter_admission (r c : string) (w : World) :
  let now := clock env (clock_reads w) in
  let hour_ago := now - us_per_hour in
  (limiter_enabled env = false →
   can_send env r c (rate_config env) w = (Ok true, w))
  ∧ (limiter_enabled env = true →
     ∃ b w', can_send env r c (rate_config env) w = (Ok b, w')
       ∧ (b = true ↔ recent hour_ago (global_window w r) < limit_global env
                     ∧ recent hour_ago (camera_window w r c)
                       < limit_camera env)
       ∧ global_window w' r
         = filter (λ ts, hour_ago < ts) (global_window w r)
       ∧ camera_window w' r c
         = filter (λ ts, hour_ago < ts) (camera_window w r c))
  ∧ (∃ w', record_sent env r c w = (Ok tt, w')
       ∧ global_window w' r = global_window w r ++ [now]
       ∧ camera_window w' r c = camera_window w r c ++ [now])
  ∧ (∀ c1 c2 c3,
       limiter_enabled env = true →
       limit_global env = 3 → 3 <= limit_camera env →
       global_window w r = [] → camera_window w r c = [] →
       let n := clock_reads w in
       let t1 := clock env n in
       let t2 := clock env (S n) in
       let t3 := clock env (S (S n)) in
       let now4 := clock env (S (S (S n))) in
       let now5 := clock env (S (S (S (S n)))) in
       let w3 := (record_sent env r c3
                    (record_sent env r c2 (record_sent env r c1 w).2).2).2 in
       now4 - us_per_hour < t1 → now4 - us_per_hour < t2 →
       now4 - us_per_hour < t3 →
       (can_send env r c (rate_config env) w3).1 = Ok false
       ∧ (t1 <= now5 - us_per_hour ∨ t2 <= now5 - us_per_hour
          ∨ t3 <= now5 - us_per_hour →
          (can_send env r c (rate_config env)
             (can_send env r c (rate_config env) w3).2).1 = Ok true)).
Proof.
  intros now hour_ago. split; [|split; [|split]].
  - apply can_send_disabled.
  - intros Hen. eexists _, _. split; [apply (can_send_enabled r c w Hen)|].
    split; [|split].
    + rewrite bool_decide_eq_true. reflexivity.
    + autorewrite with limiter. reflexivity.
    + autorewrite with limiter. reflexivity.
  - eexists. split; [apply record_sent_eq|].
    autorewrite with limiter. rewrite decide_True by reflexivity.
    split; reflexivity.
  - intros c1 c2 c3. apply three_sends_scenario.
Qed.
End rate_limiter.

(** Sends at 0, 10 and 20 minutes: the check at 30 minutes is refused, the
    check at 65 minutes is granted. *)
Lemma rate_limiter_admission_witness :
  let env := env_three_an_hour in
  let w3 := after_three_sends env "+15550100" "cam1" in
  (can_send env "+15550100" "cam1" (rate_config env) w3).1 = Ok false
  ∧ (can_send env "+15550100" "cam1" (rate_config env)
       (can_send env "+15550100" "cam1" (rate_config env) w3).2).1
    = Ok true.
Proof.
  destruct (rate_limiter_admission env_three_an_hour "+15550100" "cam1"
              initial_world) as (_ & _ & _ & H).
  pose proof (H "cam1" "cam1" "cam1" eq_refl eq_refl) as H'. clear H.
  assert (H3 : 3 <= limit_camera env_three_an_hour)
    by (vm_compute; discriminate).
  specialize (H' H3 eq_refl eq_refl). cbv zeta in H'.
  destruct H' as [Hdenied Hgranted]; [vm_compute; reflexivity ..|].
  split; [exact Hdenied|]. apply Hgranted. left. vm_compute. discriminate.
Defined.

(** Where C2 fails as it is written: with rate limiting switched off and a
    ceiling of three, the check after three sends inside the hour is
    granted; and a timestamp exactly one hour old, which is not older than
    one hour, is dropped, so that a ceiling of one grants the check. *)
Lemma rate_limiter_counterexample :
  (let env := env_limiter_off in
   let w3 := after_three_sends env "+15550100" "cam1" in
   global_window w3 "+15550100" = [minutes 0; minutes 10; minutes 20]
   ∧ can_send env "+15550100" "cam1" (rate_config env) w3 = (Ok true, w3))
  ∧ (let env := env_one_an_hour in
     let w1 := (record_sent env "+15550100" "cam1" initial_world).2 in
     global_window w1 "+15550100" = [minutes 0]
     ∧ clock env (clock_reads w1) - minutes 0 = us_per_hour
     ∧ (can_send env "+15550100" "cam1" (rate_config env) w1).1 = Ok true).
Proof.
  split.
  - split; [reflexivity|]. apply can_send_disabled. reflexivity.
  - repeat split.
Qed.

(** ** Insertion-ordered dicts *)

Section odict_facts.
Context {K V : Type} `{EqDecision K}.
Implicit Types (k : K) (v : V) (d : list (K * V)).

Lemma od_get_set_eq k v d : od_get k (od_set k v d) = Some v.
Proof.
  induction d as [|[k' v'] d IH]; simpl.
  - rewrite decide_True; reflexivity.
  - destruct (decide (k = k')); simpl.
    + rewrite decide_True; reflexivity.
    + rewrite decide_False by assumption. exact IH.
Qed.

Lemma od_get_set_ne k k' v d :
  k ≠ k' → od_get k' (od_set k v d) = od_get k' d.
Proof.
  intros Hne. induction d as [|[k0 v0] d IH]; simpl.
  - rewrite decide_False by congruence. reflexivity.
  - destruct (decide (k = k0)) as [->|]; simpl.
    + rewrite !decide_False by congruence. reflexivity.
    + destruct (decide (k' = k0)); [reflexivity | exact IH].
Qed.

Lemma od_get_del_eq k d : od_get k (od_del k d) = None.
Proof.
  induction d as [|[k' v'] d IH]; simpl; [reflexivity|].
  destruct (decide (k = k')); simpl; [exact IH|].
  rewrite decide_False by assumption. exact IH.
Qed.

Lemma od_get_del_ne k k' d :
  k ≠ k' → od_get k' (od_del k d) = od_get k' d.
Proof.
  intros Hne. induction d as [|[k0 v0] d IH]; simpl; [reflexivity|].
  destruct (decide (k = k0)) as [->|]; simpl.
  - rewrite decide_False by congruence. exact IH.
  - destruct (decide (k' = k0)); [reflexivity | exact IH].
Qed.

Lemma od_keys_del k d :
  od_keys (od_del k d) = filter (λ k', k' ≠ k) (od_keys d).
Proof.
  induction d as [|[k' v'] d IH]; simpl; [reflexivity|].
  unfold od_keys in *. simpl. rewrite filter_cons. simpl.
  destruct (decide (k = k')) as [->|Hne].
  - rewrite decide_False by tauto. exact IH.
  - rewrite decide_True by congruence.
    change (((k', v') :: od_del k d).*1) with (k' :: (od_del k d).*1).
    rewrite IH. reflexivity.
Qed.

Lemma od_keys_set k v d :
  od_keys (od_set k v d)
  = if bool_decide (k ∈ od_keys d) then od_keys d else od_keys d ++ [k].
Proof.
  unfold od_keys. induction d as [|[k' v'] d IH]; [reflexivity|].
  cbn [od_set].
  destruct (decide (k = k')) as [->|Hne]; rewrite !fmap_cons; cbn [fst].
  - rewrite bool_decide_eq_true_2 by apply list_elem_of_here. reflexivity.
  - rewrite IH. destruct (bool_decide (k ∈ d.*1)) eqn:Hin.
    + apply bool_decide_eq_true in Hin.
      rewrite bool_decide_eq_true_2 by (apply list_elem_of_further, Hin).
      reflexivity.
    + apply bool_decide_eq_false in Hin.
      rewrite bool_decide_eq_false_2; [reflexivity|].
      intros H. inversion H; subst; contradiction.
Qed.

Lemma od_set_NoDup k v d : NoDup (od_keys d) → NoDup (od_keys (od_set k v d)).
Proof.
  intros Hnd. rewrite od_keys_set.
  destruct (bool_decide (k ∈ od_keys d)) eqn:Hin; [exact Hnd|].
  apply bool_decide_eq_false in Hin.
  apply NoDup_app. split; [exact Hnd|]. split.
  - intros x Hx Hx'. apply list_elem_of_singleton in Hx'. subst. contradiction.
  - apply NoDup_singleton.
Qed.

Lemma od_del_NoDup k d : NoDup (od_keys d) → NoDup (od_keys (od_del k d)).
Proof. intros Hnd. rewrite od_keys_del. apply NoDup_filter, Hnd. Qed.
End odict_facts.

(** ** Components of the state that a computation leaves alone *)

Section frames.
Context {X : Type} (f : World → X).

Lemma preserves_ret {A} (a : A) : preserves f (ret a).
Proof. intros w. reflexivity. Qed.

Lemma preserves_lift {A} (r : result A) : preserves f (lift r).
Proof. intros w. reflexivity. Qed.

Lemma preserves_bind {A B} (m : M A) (k : A → M B) :
  preserves f m → (∀ a, preserves f (k a)) → preserves f (m ≫= k).
Proof.
  intros Hm Hk w. unfold mbind, M_bind.
  specialize (Hm w). destruct (m w) as [[a|e] w1]; simpl in *.
  - rewrite Hk. exact Hm.
  - exact Hm.
Qed.

Lemma preserves_if {A} (b : bool) (m1 m2 : M A) :
  preserves f m1 → preserves f m2 → preserves f (if b then m1 else m2).
Proof. destruct b; auto. Qed.
End frames.

(** ** The batcher *)

#[local] Arguments can_send : simpl never.
#[local] Arguments record_sent : simpl never.
#[local] Arguments _format_message : simpl never.
#[local] Arguments _send_batch : simpl never.

Section batcher_facts.
Context (env : Env).

Lemma preserves_datetime_now {X} (f : World → X) :
  clock_blind f → preserves f (datetime_now env).
Proof. intros H w. apply H. Qed.

Lemma preserves_format_lines {X} (f : World → X) (events : list Event)
    (message : string) :
  clock_blind f → preserves f (format_lines env message events).
Proof.
  intros H. revert message.
  induction events as [|event rest IH]; intros message; simpl.
  - apply preserves_ret.
  - apply preserves_bind; [apply preserves_datetime_now, H|]. intros _.
    apply preserves_bind; [apply preserves_lift|]. intros time_str.
    apply IH.
Qed.

Lemma preserves_format_message {X} (f : World → X) (events : list Event)
    (camera : string) :
  clock_blind f → preserves f (_format_message env events camera).
Proof.
  intros H. unfold _format_message.
  destruct events as [|event [|event' rest]];
    try apply preserves_format_lines, H.
  apply preserves_bind; [apply preserves_datetime_now, H|]. intros now.
  apply preserves_lift.
Qed.

Lemma pending_blind : clock_blind pending.
Proof. intros n w. reflexivity. Qed.

Lemma first_event_time_blind : clock_blind first_event_time.
Proof. intros n w. reflexivity. Qed.

Lemma outbox_blind : clock_blind outbox.
Proof. intros n w. reflexivity. Qed.

Lemma sent_messages_blind : clock_blind sent_messages.
Proof. intros n w. reflexivity. Qed.

(** [can_send] always returns, and leaves the batcher and the outbox as
    they are. *)
Lemma can_send_returns (r c : string) (w : World) :
  ∃ b w', can_send env r c (rate_config env) w = (Ok b, w')
    ∧ pending w' = pending w
    ∧ first_event_time w' = first_event_time w
    ∧ outbox w' = outbox w.
Proof.
  destruct (limiter_enabled env) eqn:Hen.
  - rewrite (can_send_enabled env r c w Hen). eexists _, _.
    split; [reflexivity|]. repeat split.
  - rewrite (can_send_disabled env r c w Hen). eexists _, _.
    split; [reflexivity|]. repeat split.
Qed.

(** A refusal comes from an enabled limiter, which only pruned. *)
Lemma can_send_refused (r c : string) (w w' : World) :
  can_send env r c (rate_config env) w = (Ok false, w') →
  limiter_enabled env = true
  ∧ w' = prune_world (clock env (clock_reads w) - us_per_hour) r c
           (tick_clock w).
Proof.
  intros H. destruct (limiter_enabled env) eqn:Hen.
  - rewrite (can_send_enabled env r c w Hen) in H.
    injection H as _ <-. split; reflexivity.
  - rewrite (can_send_disabled env r c w Hen) in H. discriminate.
Qed.

(** *** The four ways [_send_batch] ends *)

Lemma send_batch_nothing (key : batch_key) (w : World) :
  od_get key (pending w) = None ∨ od_get key (pending w) = Some [] →
  _send_batch env key w = (Ok tt, w).
Proof.
  intros H. unfold _send_batch. run.
  destruct H as [-> | ->]; reflexivity.
Qed.

Lemma send_batch_denied (key : batch_key) (w w1 : World)
    (n : Notification) (ns : list Notification) :
  od_get key (pending w) = Some (n :: ns) →
  can_send env key.1 key.2 (rate_config env) w = (Ok false, w1) →
  _send_batch env key w = (Ok tt, w1).
Proof.
  intros Hget Hcan. destruct key as [r c]. unfold _send_batch. run.
  rewrite Hget. cbn [fst snd] in *. simpl. rewrite Hcan. reflexivity.
Qed.

Lemma send_batch_raises (key : batch_key) (w w1 w2 : World)
    (n : Notification) (ns : list Notification) (e : exn) :
  od_get key (pending w) = Some (n :: ns) →
  can_send env key.1 key.2 (rate_config env) w = (Ok true, w1) →
  _format_message env (n_event <$> n :: ns) key.2 w1 = (Raise e, w2) →
  _send_batch env key w = (Raise e, w2).
Proof.
  intros Hget Hcan Hfmt. destruct key as [r c]. unfold _send_batch. run.
  rewrite Hget. cbn [fst snd] in *. simpl. rewrite Hcan. simpl.
  simpl in Hfmt. rewrite Hfmt. reflexivity.
Qed.

Lemma after_send_batches (key : batch_key) (message : string) (w2 : World) :
  pending (after_send env key message w2) = pending w2
  ∧ first_event_time (after_send env key message w2) = first_event_time w2.
Proof.
  unfold after_send. destruct (sender_result _ _ _ _); split; reflexivity.
Qed.

Lemma send_batch_sent (key : batch_key) (w w1 w2 : World)
    (n : Notification) (ns : list Notification) (message : string) :
  od_get key (pending w) = Some (n :: ns) →
  can_send env key.1 key.2 (rate_config env) w = (Ok true, w1) →
  _format_message env (n_event <$> n :: ns) key.2 w1 = (Ok message, w2) →
  _send_batch env key w = (Ok tt, cleared key (after_send env key message w2)).
Proof.
  intros Hget Hcan Hfmt.
  assert (Hp1 : pending w1 = pending w).
  { destruct (can_send_returns key.1 key.2 w) as (b & w' & H & Hp & _).
    rewrite Hcan in H. injection H as _ <-. exact Hp. }
  assert (Hp2 : pending w2 = pending w1).
  { pose proof (preserves_format_message pending (n_event <$> n :: ns)
                  key.2 pending_blind w1) as H.
    rewrite Hfmt in H. exact H. }
  assert (Hpresent : od_get key (pending w2) = Some (n :: ns))
    by (rewrite Hp2, Hp1; exact Hget).
  destruct key as [r c]. unfold _send_batch. run.
  rewrite Hget. cbn [fst snd] in *. simpl. rewrite Hcan. simpl.
  simpl in Hfmt. rewrite Hfmt. simpl.
  unfold cleared, after_send. simpl.
  destruct (sender_result env (length (outbox w2)) r message); simpl;
    rewrite Hpresent; reflexivity.
Qed.
Lemma preserves_can_send_pending (r c : string) :
  preserves pending (can_send env r c (rate_config env)).
Proof.
  intros w. destruct (can_send_returns r c w) as (b & w' & H & Hp & _).
  rewrite H. exact Hp.
Qed.

Lemma preserves_can_send_first (r c : string) :
  preserves first_event_time (can_send env r c (rate_config env)).
Proof.
  intros w. destruct (can_send_returns r c w) as (b & w' & H & _ & Hf & _).
  rewrite H. exact Hf.
Qed.

(** However it ends, [_send_batch] either leaves the batcher as it is or
    removes the key from both dicts. *)
Lemma send_batch_batches (key : batch_key) (w : World) :
  let w' := (_send_batch env key w).2 in
  (pending w' = pending w ∧ first_event_time w' = first_event_time w)
  ∨ (pending w' = od_del key (pending w)
     ∧ first_event_time w' = delete key (first_event_time w)).
Proof.
  simpl. destruct (od_get key (pending w)) as [[|n ns]|] eqn:Hget.
  - rewrite send_batch_nothing by auto. left. split; reflexivity.
  - destruct (can_send_returns key.1 key.2 w)
      as (b & w1 & Hcan & Hp1 & Hf1 & _).
    destruct b.
    + pose proof (preserves_format_message pending (n_event <$> n :: ns)
                    key.2 pending_blind w1) as Hp2.
      pose proof (preserves_format_message first_event_time
                    (n_event <$> n :: ns) key.2 first_event_time_blind w1)
        as Hf2.
      destruct (_format_message env (n_event <$> n :: ns) key.2 w1)
        as [[message|e] w2] eqn:Hfmt; simpl in Hp2, Hf2.
      * rewrite (send_batch_sent key w w1 w2 n ns message Hget Hcan Hfmt).
        right. unfold cleared. simpl.
        destruct (after_send_batches key message w2) as [-> ->].
        rewrite Hp2, Hp1, Hf2, Hf1. split; reflexivity.
      * rewrite (send_batch_raises key w w1 w2 n ns e Hget Hcan Hfmt).
        left. simpl. rewrite Hp2, Hp1, Hf2, Hf1. split; reflexivity.
    + rewrite (send_batch_denied key w w1 n ns Hget Hcan).
      left. split; assumption.
  - rewrite send_batch_nothing by auto. left. split; reflexivity.
Qed.

(** [_send_batch] for one key does not touch the entries of another. *)
Lemma send_batch_other (key key' : batch_key) (w : World) :
  key ≠ key' →
  od_get key' (pending (_send_batch env key w).2) = od_get key' (pending w)
  ∧ first_event_time (_send_batch env key w).2 !! key'
    = first_event_time w !! key'.
Proof.
  intros Hne.
  destruct (send_batch_batches key w) as [[-> ->] | [-> ->]].
  - split; reflexivity.
  - rewrite od_get_del_ne, lookup_delete_ne by assumption.
    split; reflexivity.
Qed.

Lemma send_batch_wf (key : batch_key) (w : World) :
  pending_wf w → pending_wf (_send_batch env key w).2.
Proof.
  unfold pending_wf. intros Hwf.
  destruct (send_batch_batches key w) as [[-> _] | [-> _]].
  - exact Hwf.
  - apply od_del_NoDup, Hwf.
Qed.

Lemma send_batch_inv (key : batch_key) (w : World) :
  batcher_inv w → batcher_inv (_send_batch env key w).2.
Proof.
  unfold batcher_inv. intros Hinv key'.
  destruct (send_batch_batches key w) as [[-> ->] | [-> ->]].
  - apply Hinv.
  - destruct (decide (key = key')) as [<-|Hne].
    + rewrite lookup_delete_eq, od_get_del_eq. split.
      * intros [? H]. discriminate.
      * intros (l & H & _). discriminate.
    + rewrite lookup_delete_ne, od_get_del_ne by assumption. apply Hinv.
Qed.
End batcher_facts.

Section batcher_enqueue.
Context (env : Env).

Lemma preserves_sender_pending (to body : string) :
  preserves pending (sender_send_sms env to body).
Proof. intros w. reflexivity. Qed.

Lemma preserves_sender_first (to body : string) :
  preserves first_event_time (sender_send_sms env to body).
Proof. intros w. reflexivity. Qed.

Lemma preserves_record_sent_pending (r c : string) :
  preserves pending (record_sent env r c).
Proof. intros w. reflexivity. Qed.

Lemma preserves_record_sent_first (r c : string) :
  preserves first_event_time (record_sent env r c).
Proof. intros w. reflexivity. Qed.

Lemma preserves_send_immediate_pending (r : Recipient) (c : string)
    (e : Event) :
  preserves pending (_send_immediate env r c e).
Proof.
  unfold _send_immediate.
  apply preserves_bind; [apply preserves_can_send_pending|]. intros ok.
  apply preserves_if; [apply preserves_ret|].
  apply preserves_bind;
    [apply preserves_format_message, pending_blind|]. intros message.
  apply preserves_bind; [apply preserves_sender_pending|]. intros sent.
  apply preserves_if;
    [apply preserves_record_sent_pending | apply preserves_ret].
Qed.

Lemma preserves_send_immediate_first (r : Recipient) (c : string)
    (e : Event) :
  preserves first_event_time (_send_immediate env r c e).
Proof.
  unfold _send_immediate.
  apply preserves_bind; [apply preserves_can_send_first|]. intros ok.
  apply preserves_if; [apply preserves_ret|].
  apply preserves_bind;
    [apply preserves_format_message, first_event_time_blind|].
  intros message.
  apply preserves_bind; [apply preserves_sender_first|]. intros sent.
  apply preserves_if;
    [apply preserves_record_sent_first | apply preserves_ret].
Qed.

Lemma send_immediate_denied (r : Recipient) (c : string) (e : Event)
    (w w1 : World) :
  can_send env (number r) c (rate_config env) w = (Ok false, w1) →
  _send_immediate env r c e w = (Ok tt, w1).
Proof.
  intros Hcan. unfold _send_immediate. run. rewrite Hcan. reflexivity.
Qed.

Lemma add_notification_off (r : Recipient) (c : string) (e : Event) :
  batching_on env = false →
  add_notification env r c e = _send_immediate env r c e.
Proof. unfold batching_on, add_notification. intros ->. reflexivity. Qed.

Lemma add_notification_on (r : Recipient) (c : string) (e : Event)
    (w : World) :
  batching_on env = true →
  add_notification env r c e w = (Ok tt, enqueued env r c e w).
Proof.
  unfold batching_on, add_notification, enqueued. intros ->. run.
  destruct (first_event_time w !! (number r, c)); reflexivity.
Qed.

Lemma enqueued_pending (r : Recipient) (c : string) (e : Event) (w : World) :
  ∃ now,
    pending (enqueued env r c e w)
    = od_set (number r, c)
        (default [] (od_get (number r, c) (pending w))
           ++ [mkNotification r c e now])
        (pending w).
Proof.
  unfold enqueued.
  destruct (first_event_time w !! (number r, c)); eexists; reflexivity.
Qed.

Lemma enqueued_first (r : Recipient) (c : string) (e : Event) (w : World) :
  first_event_time (enqueued env r c e w)
  = match first_event_time w !! (number r, c) with
    | Some _ => first_event_time w
    | None => <[(number r, c) := clock env (clock_reads w)]>
                (first_event_time w)
    end.
Proof.
  unfold enqueued.
  destruct (first_event_time w !! (number r, c)); reflexivity.
Qed.

Lemma enqueued_inv (r : Recipient) (c : string) (e : Event) (w : World) :
  batcher_inv w → batcher_inv (enqueued env r c e w).
Proof.
  unfold batcher_inv. intros Hinv key.
  destruct (enqueued_pending r c e w) as (now & ->).
  rewrite enqueued_first.
  destruct (decide ((number r, c) = key)) as [<-|Hne].
  - rewrite od_get_set_eq. split.
    + intros _. eexists. split; [reflexivity|].
      intros H. apply app_eq_nil in H. destruct H as [_ H]. discriminate.
    + intros _.
      destruct (first_event_time w !! (number r, c)) eqn:Hfirst;
        [rewrite Hfirst; eauto|].
      rewrite lookup_insert_eq. eauto.
  - rewrite od_get_set_ne by assumption.
    destruct (first_event_time w !! (number r, c)); [apply Hinv|].
    rewrite lookup_insert_ne by assumption. apply Hinv.
Qed.

Lemma enqueued_wf (r : Recipient) (c : string) (e : Event) (w : World) :
  pending_wf w → pending_wf (enqueued env r c e w).
Proof.
  unfold pending_wf. intros Hwf.
  destruct (enqueued_pending r c e w) as (now & ->).
  apply od_set_NoDup, Hwf.
Qed.

Lemma add_notification_inv (r : Recipient) (c : string) (e : Event)
    (w : World) :
  batcher_inv w → batcher_inv (add_notification env r c e w).2.
Proof.
  intros Hinv. destruct (batching_on env) eqn:Hon.
  - rewrite add_notification_on by assumption. apply enqueued_inv, Hinv.
  - rewrite add_notification_off by assumption.
    unfold batcher_inv.
    rewrite preserves_send_immediate_pending,
      preserves_send_immediate_first.
    exact Hinv.
Qed.

Lemma add_notification_wf (r : Recipient) (c : string) (e : Event)
    (w : World) :
  pending_wf w → pending_wf (add_notification env r c e w).2.
Proof.
  intros Hwf. destruct (batching_on env) eqn:Hon.
  - rewrite add_notification_on by assumption. apply enqueued_wf, Hwf.
  - rewrite add_notification_off by assumption.
    unfold pending_wf. rewrite preserves_send_immediate_pending. exact Hwf.
Qed.
End batcher_enqueue.
Section batcher_pass.
Context (env : Env).

Lemma flush_if_due_eq (now : Z) (key : batch_key) (w : World) :
  flush_if_due env
    (default 300 (window_seconds (batching (config env))))
    (default 5 (max_batch_size (batching (config env)))) now key w
  = if flush_due env now w key then _send_batch env key w else (Ok tt, w).
Proof.
  unfold flush_if_due, flush_due, window_us, batch_ceiling. run.
  destruct (od_get key (pending w)) as [[|n ns]|]; try reflexivity.
  destruct (first_event_time w !! key); [|reflexivity].
  destruct (_ || _); reflexivity.
Qed.

Lemma flush_due_agree (now : Z) (key : batch_key) (w w0 : World) :
  od_get key (pending w) = od_get key (pending w0) →
  first_event_time w !! key = first_event_time w0 !! key →
  flush_due env now w key = flush_due env now w0 key.
Proof. unfold flush_due. intros -> ->. reflexivity. Qed.

(** The loop of a pass calls [_send_batch] for the keys that were due when
    the pass began, in order, and stops where one of these calls raises. *)
Lemma for_each_flush_if_due (now : Z) (ks : list batch_key) (w0 w : World) :
  NoDup ks →
  (∀ k, k ∈ ks → od_get k (pending w) = od_get k (pending w0)
                 ∧ first_event_time w !! k = first_event_time w0 !! k) →
  for_each (flush_if_due env
              (default 300 (window_seconds (batching (config env))))
              (default 5 (max_batch_size (batching (config env)))) now)
    ks w
  = for_each (_send_batch env)
      (filter (λ k, flush_due env now w0 k = true) ks) w.
Proof.
  intros Hnd. revert w.
  induction Hnd as [|k ks Hk Hnd IH]; intros w Hagree; [reflexivity|].
  cbn [for_each]. unfold mbind, M_bind. rewrite flush_if_due_eq.
  destruct (Hagree k (list_elem_of_here _ _)) as [Hp Hf].
  rewrite (flush_due_agree now k w w0 Hp Hf). rewrite filter_cons.
  destruct (flush_due env now w0 k) eqn:Hdue.
  - rewrite decide_True by reflexivity. cbn [for_each].
    unfold mbind, M_bind.
    pose proof (send_batch_other env k) as Hother.
    destruct (_send_batch env k w) as [[[]|e] w1] eqn:Hsend; [|reflexivity].
    apply IH. intros k' Hk'.
    assert (Hne : k ≠ k') by (intros ->; contradiction).
    destruct (Hother k' w Hne) as [Hp' Hf'].
    rewrite Hsend in Hp', Hf'. simpl in Hp', Hf'.
    destruct (Hagree k' (list_elem_of_further _ _ _ Hk')) as [Hp0 Hf0].
    split; congruence.
  - rewrite decide_False by discriminate.
    apply IH. intros k' Hk'.
    apply Hagree, list_elem_of_further, Hk'.
Qed.

Lemma process_batches_pass_eq (w : World) :
  pending_wf w →
  process_batches_pass env w
  = for_each (_send_batch env)
      (filter (λ k, flush_due env (clock env (clock_reads w)) w k = true)
         (od_keys (pending w)))
      (tick_clock w).
Proof.
  intros Hwf. unfold process_batches_pass. run.
  apply (for_each_flush_if_due _ _ w (tick_clock w) Hwf).
  intros k _. split; reflexivity.
Qed.

Lemma for_each_send_batch_other (key : batch_key) (ks : list batch_key)
    (w : World) :
  key ∉ ks →
  od_get key (pending (for_each (_send_batch env) ks w).2)
  = od_get key (pending w)
  ∧ first_event_time (for_each (_send_batch env) ks w).2 !! key
    = first_event_time w !! key.
Proof.
  revert w. induction ks as [|k ks IH]; intros w Hnotin.
  - split; reflexivity.
  - apply not_elem_of_cons in Hnotin. destruct Hnotin as [Hne Hnotin].
    cbn [for_each]. unfold mbind, M_bind.
    destruct (send_batch_other env k key w (not_eq_sym Hne)) as [Hp Hf].
    destruct (_send_batch env k w) as [[[]|e] w1]; simpl in Hp, Hf.
    + destruct (IH w1 Hnotin) as [Hp' Hf']. split; congruence.
    + split; assumption.
Qed.

(** Whatever holds before a loop and is kept by its body, however the body
    ends, holds after the loop. *)
Lemma for_each_keeps {A} (P : World → Prop) (body : A → M unit)
    (l : list A) :
  (∀ a w, P w → P (body a w).2) → ∀ w, P w → P (for_each body l w).2.
Proof.
  intros Hbody. induction l as [|a l IH]; intros w Hw; [exact Hw|].
  cbn [for_each]. unfold mbind, M_bind.
  specialize (Hbody a w Hw).
  destruct (body a w) as [[[]|e] w1]; simpl in Hbody.
  - apply IH, Hbody.
  - exact Hbody.
Qed.

Lemma process_batches_pass_wf (w : World) :
  pending_wf w → pending_wf (process_batches_pass env w).2.
Proof.
  intros Hwf. rewrite process_batches_pass_eq by assumption.
  apply (for_each_keeps pending_wf).
  - intros key w'. apply send_batch_wf.
  - exact Hwf.
Qed.

(** One pass of the scheduler loop reads the clock once and then calls
    [_send_batch], in the order of the dict, on the keys that are due at
    that moment, up to the first of these calls that raises: a flush that
    raises ends the pass, and the keys after it are left out. For a key whose
    pending list is not empty, due means that the time since its first
    event is at least [window_seconds] or that the list has at least
    [max_batch_size] elements. A key that is not due keeps its pending list
    and its first-event time through the pass. Each pass of the loop
    follows a sleep of 10 seconds. *)
Theorem pass_flushes_due_keys (w : World) :
  pending_wf w → batcher_inv w →
  let now := clock env (clock_reads w) in
  process_batches_pass env w
  = for_each (_send_batch env)
      (filter (λ k, flush_due env now w k = true) (od_keys (pending w)))
      (tick_clock w)
  ∧ (∀ key l,
       od_get key (pending w) = Some l → l ≠ [] →
       ∃ first_time,
         first_event_time w !! key = Some first_time
         ∧ (flush_due env now w key = true
            ↔ window_us env <= now - first_time
              ∨ batch_ceiling env <= Z.of_nat (length l)))
  ∧ (∀ key,
       flush_due env now w key = false →
       od_get key (pending (process_batches_pass env w).2)
       = od_get key (pending w)
       ∧ first_event_time (process_batches_pass env w).2 !! key
         = first_event_time w !! key)
  ∧ (∀ fuel,
       running w = true →
       _process_batches env (S fuel) w
       = (time_sleep 10 ;; process_batches_pass env ;;
          _process_batches env fuel) w).
Proof.
  intros Hwf Hinv now. split; [|split; [|split]].
  - apply process_batches_pass_eq, Hwf.
  - intros key l Hget Hl.
    destruct (proj2 (Hinv key)) as [first_time Hfirst]; [eauto|].
    exists first_time. split; [exact Hfirst|].
    unfold flush_due. rewrite Hget, Hfirst.
    destruct l as [|n ns]; [contradiction|].
    rewrite orb_true_iff, !Z.leb_le. reflexivity.
  - intros key Hdue. rewrite process_batches_pass_eq by assumption.
    refine (for_each_send_batch_other key _ (tick_clock w) _).
    rewrite list_elem_of_filter. intros [Hdue' _]. fold now in Hdue'.
    congruence.
  - intros fuel Hrun. cbn [_process_batches]. unfold mbind at 1, M_bind at 1.
    unfold gets. rewrite Hrun. reflexivity.
Qed.
End batcher_pass.

Section batcher_claims.
Context (env : Env).

Lemma initial_world_inv : batcher_inv initial_world.
Proof.
  intros key. split.
  - intros [t Ht]. cbn in Ht. rewrite lookup_empty in Ht. discriminate.
  - intros (l & Hl & _). discriminate.
Qed.

Lemma initial_world_wf : pending_wf initial_world.
Proof. apply NoDup_nil_2. Qed.

Lemma pass_keeps_inv (w : World) :
  batcher_inv w → batcher_inv (process_batches_pass env w).2.
Proof.
  intros Hinv. unfold process_batches_pass. run.
  apply (for_each_keeps batcher_inv).
  - intros key w' Hw'. rewrite flush_if_due_eq.
    destruct (flush_due env _ w' key); [apply send_batch_inv, Hw' | exact Hw'].
  - exact Hinv.
Qed.

Lemma cleared_inv (key : batch_key) (w : World) :
  batcher_inv w → batcher_inv (cleared key w).
Proof.
  unfold batcher_inv, cleared. simpl. intros Hinv key'.
  destruct (decide (key = key')) as [<-|Hne].
  - rewrite lookup_delete_eq, od_get_del_eq. split.
    + intros [? H]. discriminate.
    + intros (l & H & _). discriminate.
  - rewrite lookup_delete_ne, od_get_del_ne by assumption. apply Hinv.
Qed.

(** C6. In the initial state a key has a first-event time exactly when its
    pending list exists and is not empty, and [add_notification],
    [_send_batch], a pass of the scheduler and the clearing of a key keep
    it so, however they end. [add_notification] sets the first-event time
    of a key only if it has none, and clearing removes it together with
    the pending list. *)
Theorem batcher_invariant (w : World) :
  batcher_inv initial_world
  ∧ (batcher_inv w →
     (∀ r c e, batcher_inv (add_notification env r c e w).2)
     ∧ (∀ key, batcher_inv (_send_batch env key w).2)
     ∧ batcher_inv (process_batches_pass env w).2
     ∧ (∀ key, batcher_inv (cleared key w))
     ∧ (∀ r c e,
          batching_on env = true →
          first_event_time (add_notification env r c e w).2 !! (number r, c)
          = Some (default (clock env (clock_reads w))
                    (first_event_time w !! (number r, c))))
     ∧ (∀ key,
          first_event_time (cleared key w) !! key = None
          ∧ od_get key (pending (cleared key w)) = None)).
Proof.
  split; [apply initial_world_inv|]. intros Hinv.
  split; [|split; [|split; [|split; [|split]]]].
  - intros r c e. apply add_notification_inv, Hinv.
  - intros key. apply send_batch_inv, Hinv.
  - apply pass_keeps_inv, Hinv.
  - intros key. apply cleared_inv, Hinv.
  - intros r c e Hon. rewrite add_notification_on by assumption.
    cbn [snd]. rewrite enqueued_first.
    destruct (first_event_time w !! (number r, c)) eqn:Hfirst.
    + exact Hfirst.
    + apply lookup_insert_eq.
  - intros key. unfold cleared. simpl.
    split; [apply lookup_delete_eq | apply od_get_del_eq].
Qed.

(** What requests that arrive afterwards do to a batch that is pending:
    they add to its end. *)
Lemma add_all_extends (key : batch_key)
    (adds : list (Recipient * string * Event)) (w : World)
    (l : list Notification) (t : Z) :
  od_get key (pending w) = Some l →
  first_event_time w !! key = Some t →
  first_event_time (add_all env adds w) !! key = Some t
  ∧ ∃ extra,
      od_get key (pending (add_all env adds w)) = Some (l ++ extra)
      ∧ without_time <$> extra
        = if batching_on env then for_key key adds else [].
Proof.
  revert w l. induction adds as [|[[r c] e] adds IH]; intros w l Hget Hfirst.
  - split; [exact Hfirst|]. exists []. rewrite app_nil_r.
    split; [exact Hget|]. destruct (batching_on env); reflexivity.
  - cbn [add_all]. unfold for_key. rewrite filter_cons. cbn [fst snd].
    fold (for_key key adds).
    destruct (batching_on env) eqn:Hon.
    + rewrite add_notification_on by assumption. cbn [snd].
      destruct (enqueued_pending env r c e w) as (now & Hpend).
      pose proof (enqueued_first env r c e w) as Hfet.
      destruct (decide ((number r, c) = key)) as [Heq|Hne].
      * subst key. rewrite Hfirst in Hfet.
        destruct (IH (enqueued env r c e w)
                    (l ++ [mkNotification r c e now]))
          as (Ht & extra & Hx & Hw).
        { rewrite Hpend, od_get_set_eq, Hget. reflexivity. }
        { rewrite Hfet. exact Hfirst. }
        split; [exact Ht|]. exists (mkNotification r c e now :: extra).
        split.
        -- rewrite Hx, <- app_assoc. reflexivity.
        -- rewrite fmap_cons, Hw. reflexivity.
      * destruct (IH (enqueued env r c e w) l) as (Ht & extra & Hx & Hw).
        { rewrite Hpend, od_get_set_ne by assumption. exact Hget. }
        { rewrite Hfet.
          destruct (first_event_time w !! (number r, c)); [exact Hfirst|].
          rewrite lookup_insert_ne by assumption. exact Hfirst. }
        split; [exact Ht|]. exists extra.
        split; assumption.
    + rewrite add_notification_off by assumption.
      destruct (IH (_send_immediate env r c e w).2 l)
        as (Ht & extra & Hx & Hw).
      { rewrite preserves_send_immediate_pending. exact Hget. }
      { rewrite preserves_send_immediate_first. exact Hfirst. }
      split; [exact Ht|]. exists extra.
      split; assumption.
Qed.

(** When the limiter refuses a flush, [_send_batch] returns with the
    pending lists and the first-event times as they were and with nothing
    sent. If the key was due in that pass, it is due again at any later
    clock value that is not smaller, whatever requests arrive in between,
    with the same first-event time and a pending list that is the refused
    batch followed by the events that arrived since. Whether a later pass
    gets as far as this key is another matter. *)
Theorem denied_batch_kept (key : batch_key) (w : World)
    (n : Notification) (ns : list Notification) :
  od_get key (pending w) = Some (n :: ns) →
  (can_send env key.1 key.2 (rate_config env) w).1 = Ok false →
  ∃ w', _send_batch env key w = (Ok tt, w')
    ∧ pending w' = pending w
    ∧ first_event_time w' = first_event_time w
    ∧ outbox w' = outbox w
    ∧ ∀ now now' adds,
        flush_due env now w key = true → now <= now' →
        flush_due env now' (add_all env adds w') key = true
        ∧ first_event_time (add_all env adds w') !! key
          = first_event_time w !! key
        ∧ ∃ extra,
            od_get key (pending (add_all env adds w'))
            = Some ((n :: ns) ++ extra)
            ∧ without_time <$> extra
              = if batching_on env then for_key key adds else [].
Proof.
  intros Hget Hdenied.
  destruct (can_send_returns env key.1 key.2 w)
    as (b & w' & Hcan & Hp & Hf & Ho).
  rewrite Hcan in Hdenied. injection Hdenied as ->.
  exists w'. split; [apply (send_batch_denied env key w w' n ns Hget Hcan)|].
  split; [exact Hp|]. split; [exact Hf|]. split; [exact Ho|].
  intros now now' adds Hdue Hle. unfold flush_due in Hdue.
  rewrite Hget in Hdue.
  destruct (first_event_time w !! key) as [t|] eqn:Hfirst; [|discriminate].
  destruct (add_all_extends key adds w' (n :: ns) t)
    as (Ht & extra & Hx & Hw).
  { rewrite Hp. exact Hget. }
  { rewrite Hf. exact Hfirst. }
  split; [|split; [exact Ht | exists extra; split; assumption]].
  unfold flush_due. rewrite Hx, Ht. cbn [app].
  apply orb_true_iff in Hdue. apply orb_true_iff.
  rewrite !Z.leb_le in *. rewrite length_cons, length_app.
  rewrite length_cons in Hdue. lia.
Qed.

Lemma send_immediate_granted (r : Recipient) (c : string) (e : Event)
    (w w1 w2 : World) (message : string) :
  can_send env (number r) c (rate_config env) w = (Ok true, w1) →
  _format_message env [e] c w1 = (Ok message, w2) →
  (_send_immediate env r c e w).1 = Ok tt
  ∧ outbox (_send_immediate env r c e w).2
    = outbox w ++ [(number r, message)].
Proof.
  intros Hcan Hfmt.
  assert (Ho : outbox w2 = outbox w).
  { pose proof (preserves_format_message env outbox [e] c outbox_blind w1)
      as H2.
    rewrite Hfmt in H2. simpl in H2. rewrite H2.
    destruct (can_send_returns env (number r) c w) as (b & w' & H & _ & _ & H1).
    rewrite Hcan in H. injection H as _ <-. exact H1. }
  unfold _send_immediate.
  remember (_format_message env [e] c) as format eqn:Hformat.
  run. rewrite Hcan. simpl. subst format. rewrite Hfmt. simpl.
  rewrite <- Ho.
  destruct (sender_result env (length (outbox w2)) (number r) message);
    split; reflexivity.
Qed.


(** C10. With batching switched off, [add_notification] is
    [_send_immediate]: it enqueues nothing, and when the limiter admits the
    event it hands the single-event message to the sender. An event that
    the limiter refuses is not sent and not kept: the call returns with the
    state that [can_send] left, in which nothing was handed to the sender
    and the windows were pruned and not extended. *)
Theorem immediate_denied_dropped (r : Recipient) (c : string) (e : Event)
    (w : World) :
  batching_on env = false →
  add_notification env r c e w = _send_immediate env r c e w
  ∧ pending (add_notification env r c e w).2 = pending w
  ∧ first_event_time (add_notification env r c e w).2 = first_event_time w
  ∧ (∀ w1 w2 message,
       can_send env (number r) c (rate_config env) w = (Ok true, w1) →
       _format_message env [e] c w1 = (Ok message, w2) →
       outbox (add_notification env r c e w).2
       = outbox w ++ [(number r, message)])
  ∧ ((can_send env (number r) c (rate_config env) w).1 = Ok false →
     let hour_ago := clock env (clock_reads w) - us_per_hour in
     ∃ w', add_notification env r c e w = (Ok tt, w')
       ∧ w' = prune_world hour_ago (number r) c (tick_clock w)
       ∧ outbox w' = outbox w
       ∧ global_window w' (number r)
         = filter (λ ts, hour_ago < ts) (global_window w (number r))
       ∧ camera_window w' (number r) c
         = filter (λ ts, hour_ago < ts) (camera_window w (number r) c)).
Proof.
  intros Hoff. rewrite add_notification_off by assumption.
  split; [reflexivity|].
  split; [apply preserves_send_immediate_pending|].
  split; [apply preserves_send_immediate_first|]. split.
  - intros w1 w2 message Hcan Hfmt.
    apply (send_immediate_granted r c e w w1 w2 message Hcan Hfmt).
  - intros Hdenied hour_ago.
    destruct (can_send_returns env (number r) c w)
      as (b & w' & Hcan & _ & _ & Ho).
    rewrite Hcan in Hdenied. injection Hdenied as ->.
    destruct (can_send_refused env _ _ _ _ Hcan) as [_ Hw'].
    exists w'. split; [apply send_immediate_denied, Hcan|].
    split; [exact Hw'|]. split; [exact Ho|]. rewrite Hw'. split.
    + exact (global_window_prune _ (number r) c (tick_clock w)).
    + exact (camera_window_prune _ (number r) c (tick_clock w)).
Qed.

(** What an admitted flush does when the message can be formatted: one
    call of the sender with that message, a recorded send exactly when the
    sender reports success, and the key removed from both dicts. *)
Lemma send_batch_granted (key : batch_key) (w w1 w2 : World)
    (n : Notification) (ns : list Notification) (message : string) :
  od_get key (pending w) = Some (n :: ns) →
  can_send env key.1 key.2 (rate_config env) w = (Ok true, w1) →
  _format_message env (n_event <$> n :: ns) key.2 w1 = (Ok message, w2) →
  ∃ w', _send_batch env key w = (Ok tt, w')
    ∧ outbox w' = outbox w ++ [(key.1, message)]
    ∧ od_get key (pending w') = None
    ∧ first_event_time w' !! key = None
    ∧ let sent := sender_result env (length (outbox w)) key.1 message in
      global_window w' key.1
      = global_window w1 key.1
          ++ (if sent then [clock env (clock_reads w2)] else []).
Proof.
  intros Hget Hcan Hfmt.
  exists (cleared key (after_send env key message w2)).
  split; [apply (send_batch_sent env key w w1 w2 n ns message Hget Hcan Hfmt)|].
  assert (Ho : outbox w2 = outbox w).
  { pose proof (preserves_format_message env outbox (n_event <$> n :: ns)
                  key.2 outbox_blind w1) as H2.
    rewrite Hfmt in H2. simpl in H2. rewrite H2.
    destruct (can_send_returns env key.1 key.2 w) as (b & w' & H & _ & _ & H1).
    rewrite Hcan in H. injection H as _ <-. exact H1. }
  assert (Hs : sent_messages w2 = sent_messages w1).
  { pose proof (preserves_format_message env sent_messages
                  (n_event <$> n :: ns) key.2 sent_messages_blind w1) as H2.
    rewrite Hfmt in H2. exact H2. }
  unfold cleared, after_send. cbn [pending first_event_time set_pending
    set_first_event_time].
  split; [|split; [apply od_get_del_eq | split; [apply lookup_delete_eq|]]].
  - rewrite <- Ho. destruct (sender_result _ _ _ _); reflexivity.
  - cbv zeta. rewrite <- Ho.
    destruct (sender_result env (length (outbox w2)) key.1 message).
    + unfold global_window. simpl. rewrite lookup_total_insert_eq.
      unfold global_window. simpl. rewrite Hs. reflexivity.
    + unfold global_window. simpl. rewrite Hs, app_nil_r. reflexivity.
Qed.
End batcher_claims.

Lemma add_all_inv (env : Env) (adds : list (Recipient * string * Event))
    (w : World) :
  batcher_inv w → batcher_inv (add_all env adds w).
Proof.
  revert w. induction adds as [|[[r c] e] adds IH]; intros w Hinv; [exact Hinv|].
  apply IH, add_notification_inv, Hinv.
Qed.

Lemma add_all_wf (env : Env) (adds : list (Recipient * string * Event))
    (w : World) :
  pending_wf w → pending_wf (add_all env adds w).
Proof.
  revert w. induction adds as [|[[r c] e] adds IH]; intros w Hwf; [exact Hwf|].
  apply IH, add_notification_wf, Hwf.
Qed.

(** Five events within a second: the key is due at the next pass, ten
    seconds after the first event. *)
Lemma pass_flushes_due_keys_witness :
  flush_due env_five_events (seconds 10) five_events_pending cam1_key = true
  ∧ process_batches_pass env_five_events five_events_pending
    = for_each (_send_batch env_five_events) [cam1_key]
        (tick_clock five_events_pending).
Proof.
  assert (Hwf : pending_wf five_events_pending)
    by apply add_all_wf, initial_world_wf.
  assert (Hinv : batcher_inv five_events_pending)
    by apply add_all_inv, initial_world_inv.
  destruct (pass_flushes_due_keys env_five_events five_events_pending Hwf Hinv)
    as (Hpass & Hdue & _).
  split.
  - destruct (Hdue cam1_key
                (default [] (od_get cam1_key (pending five_events_pending))))
      as (first_time & _ & Hiff);
      [vm_compute; reflexivity | vm_compute; discriminate |].
    apply Hiff. right. vm_compute. discriminate.
  - rewrite Hpass. vm_compute. reflexivity.
Defined.

Lemma batcher_invariant_witness :
  batcher_inv
    (add_notification env_two_alerts primary_contact "192.168.1.100"
       hikvision_event initial_world).2.
Proof.
  destruct (batcher_invariant env_two_alerts initial_world) as [H0 H].
  destruct (H H0) as (Hadd & _). apply Hadd.
Defined.

(** One send an hour and one already recorded: the flush of the two pending
    events is refused and the batch stays. *)
Lemma denied_batch_kept_witness :
  ∃ w', _send_batch (env_one_send_an_hour None) cam1_key one_sent_two_pending
        = (Ok tt, w')
    ∧ pending w' = pending one_sent_two_pending
    ∧ outbox w' = [].
Proof.
  destruct (denied_batch_kept (env_one_send_an_hour None) cam1_key
              one_sent_two_pending
              (mkNotification primary_contact "cam1" (motion_event "normal")
                 (minutes 1))
              [mkNotification primary_contact "cam1" (motion_event "normal")
                 (minutes 2)])
    as (w' & Hsend & Hp & _ & Ho & _);
    [vm_compute; reflexivity | vm_compute; reflexivity |].
  exists w'. split; [exact Hsend|]. split; [exact Hp | exact Ho].
Defined.

(** The same refusal with batching off: the event is gone. *)
Lemma immediate_denied_dropped_witness :
  ∃ w', add_notification (env_one_send_an_hour (Some false)) primary_contact
          "cam1" (motion_event "normal") one_sent = (Ok tt, w')
    ∧ pending w' = [] ∧ outbox w' = []
    ∧ global_window w' "+15550100" = [minutes 0].
Proof.
  destruct (immediate_denied_dropped (env_one_send_an_hour (Some false))
              primary_contact "cam1" (motion_event "normal") one_sent)
    as (_ & Hp & _ & _ & Hdenied); [vm_compute; reflexivity|].
  destruct Hdenied as (w' & Hadd & _ & Ho & Hg & _); [vm_compute; reflexivity|].
  exists w'. rewrite Hadd in Hp.
  split; [exact Hadd|]. split; [exact Hp|]. split; [exact Ho|].
  etransitivity; [exact Hg | vm_compute; reflexivity].
Defined.

(** A flush that raises leaves the batcher and the outbox as they were. *)
Lemma send_batch_raise_keeps (env : Env) (key : batch_key) (w : World)
    (e : exn) :
  (_send_batch env key w).1 = Raise e →
  pending (_send_batch env key w).2 = pending w
  ∧ first_event_time (_send_batch env key w).2 = first_event_time w
  ∧ outbox (_send_batch env key w).2 = outbox w.
Proof.
  destruct (od_get key (pending w)) as [[|n ns]|] eqn:Hget.
  - rewrite send_batch_nothing by auto. discriminate.
  - destruct (can_send_returns env key.1 key.2 w)
      as (b & w1 & Hcan & Hp1 & Hf1 & Ho1).
    destruct b.
    + pose proof (preserves_format_message env pending (n_event <$> n :: ns)
                    key.2 pending_blind w1) as Hp2.
      pose proof (preserves_format_message env first_event_time
                    (n_event <$> n :: ns) key.2 first_event_time_blind w1)
        as Hf2.
      pose proof (preserves_format_message env outbox (n_event <$> n :: ns)
                    key.2 outbox_blind w1) as Ho2.
      destruct (_format_message env (n_event <$> n :: ns) key.2 w1)
        as [[message|e'] w2] eqn:Hfmt; simpl in Hp2, Hf2, Ho2.
      * rewrite (send_batch_sent env key w w1 w2 n ns message Hget Hcan Hfmt).
        discriminate.
      * rewrite (send_batch_raises env key w w1 w2 n ns e' Hget Hcan Hfmt).
        intros _. simpl. rewrite Hp2, Hp1, Hf2, Hf1, Ho2, Ho1. repeat split.
    + rewrite (send_batch_denied env key w w1 n ns Hget Hcan). discriminate.
  - rewrite send_batch_nothing by auto. discriminate.
Qed.

(** C5 at a batch that the code does not flush: two Hikvision events whose
    [dateTime] came with the payload. The limiter admits the flush, the
    second branch of [_format_message] calls [strftime] on a text, and
    [_send_batch] leaves with [AttributeError]: nothing is sent, the batch
    is not cleared, and the pass of the scheduler that called it ends with
    the same exception, and with it the loop of [_process_batches], after
    its first pause. *)
Theorem send_batch_crash :
  _normalize_event (VDict hikvision_payload) (seconds 0) = Ok hikvision_event
  ∧ length (default [] (od_get front_door_key (pending two_alerts_pending)))
    = 2%nat
  ∧ (can_send env_two_alerts "+15550100" "192.168.1.100"
       (rate_config env_two_alerts) two_alerts_pending).1 = Ok true
  ∧ (_send_batch env_two_alerts front_door_key two_alerts_pending).1
    = Raise AttributeError
  ∧ outbox (_send_batch env_two_alerts front_door_key two_alerts_pending).2
    = []
  ∧ pending (_send_batch env_two_alerts front_door_key two_alerts_pending).2
    = pending two_alerts_pending
  ∧ first_event_time
      (_send_batch env_two_alerts front_door_key two_alerts_pending).2
    = first_event_time two_alerts_pending
  ∧ flush_due env_two_alerts (seconds 301) two_alerts_pending front_door_key
    = true
  ∧ (process_batches_pass env_two_alerts two_alerts_pending).1
    = Raise AttributeError
  ∧ (_process_batches env_two_alerts 3 two_alerts_pending).1
    = Raise AttributeError
  ∧ slept (_process_batches env_two_alerts 3 two_alerts_pending).2 = [10].
Proof.
  assert (Hraise :
    (_send_batch env_two_alerts front_door_key two_alerts_pending).1
    = Raise AttributeError) by (vm_compute; reflexivity).
  destruct (send_batch_raise_keeps _ _ _ _ Hraise) as (Hp & Hf & Ho).
  split; [vm_compute; reflexivity|]. split; [vm_compute; reflexivity|].
  split; [vm_compute; reflexivity|]. split; [exact Hraise|].
  split; [rewrite Ho; vm_compute; reflexivity|].
  split; [exact Hp|]. split; [exact Hf|].
  repeat split; vm_compute; reflexivity.
Qed.

(** Every state the process goes through has one pending list per key and
    satisfies the invariant of the batcher. *)
Lemma reachable_wf_inv (env : Env) (w : World) :
  reachable env w → pending_wf w ∧ batcher_inv w.
Proof.
  induction 1 as [|r c e w _ [Hwf Hinv]|w _ [Hwf Hinv]|seconds w _ [Hwf Hinv]].
  - split; [apply initial_world_wf | apply initial_world_inv].
  - split; [apply add_notification_wf, Hwf | apply add_notification_inv, Hinv].
  - split; [apply process_batches_pass_wf, Hwf | apply pass_keeps_inv, Hinv].
  - split; assumption.
Qed.

(** Five events within a second, flushed by the pass ten seconds later: one
    message that counts the five and lists the last three, one recorded
    send, and nothing left pending. *)
Example five_events_flushed :
  let w' := (process_batches_pass env_five_events five_events_pending).2 in
  (process_batches_pass env_five_events five_events_pending).1 = Ok tt
  ∧ outbox w'
    = [("+15550100",
        "🚨 cam1: 5 alerts" +:+ nl +:+ "• motion at 00:00" +:+ nl
        +:+ "• motion at 00:00" +:+ nl +:+ "• motion at 00:00" +:+ nl)]
  ∧ pending w' = []
  ∧ global_window w' "+15550100" = [seconds 11].
Proof. vm_compute. repeat split. Qed.


(** C3 at a pass that leaves out a key that is due. Two Hikvision events
    are pending for the front door and one event for [cam1], and at the
    pass both keys are older than the window, so both are due; on its own
    the flush of [cam1] sends its message. The pass meets the front door
    first, the flush of that key raises [AttributeError] ([strftime]
    called on the text of [dateTime]), nothing catches it in the loop, and
    the pass ends there: the limiter is not asked about [cam1], nothing is
    sent, the event of [cam1] stays pending, and the loop of
    [_process_batches] ends after its first pause, so that no later pass
    flushes it either. *)
Theorem pass_skips_due_key :
  _normalize_event (VDict hikvision_payload) (seconds 0) = Ok hikvision_event
  ∧ _normalize_event (VDict cam1_payload) (seconds 3)
    = Ok (cam1_event (seconds 3))
  ∧ od_keys (pending two_keys_pending) = [front_door_key; cam1_key]
  ∧ length (default [] (od_get front_door_key (pending two_keys_pending)))
    = 2%nat
  ∧ length (default [] (od_get cam1_key (pending two_keys_pending))) = 1%nat
  ∧ first_event_time two_keys_pending !! front_door_key = Some (seconds 0)
  ∧ first_event_time two_keys_pending !! cam1_key = Some (seconds 3)
  ∧ clock env_two_keys (clock_reads two_keys_pending) = seconds 310
  ∧ flush_due env_two_keys (seconds 310) two_keys_pending front_door_key
    = true
  ∧ flush_due env_two_keys (seconds 310) two_keys_pending cam1_key = true
  ∧ (flush_if_due env_two_keys 300 5 (seconds 310) cam1_key
       (tick_clock two_keys_pending)).1 = Ok tt
  ∧ outbox (flush_if_due env_two_keys 300 5 (seconds 310) cam1_key
              (tick_clock two_keys_pending)).2
    = [("+15550100", "cam1: motion at 00:05")]
  ∧ (process_batches_pass env_two_keys two_keys_pending).1
    = Raise AttributeError
  ∧ outbox (process_batches_pass env_two_keys two_keys_pending).2 = []
  ∧ clock_reads (process_batches_pass env_two_keys two_keys_pending).2
    = (clock_reads two_keys_pending + 3)%nat
  ∧ od_get cam1_key
      (pending (process_batches_pass env_two_keys two_keys_pending).2)
    = od_get cam1_key (pending two_keys_pending)
  ∧ first_event_time (process_batches_pass env_two_keys two_keys_pending).2
      !! cam1_key
    = Some (seconds 3)
  ∧ (_process_batches env_two_keys 3 two_keys_pending).1
    = Raise AttributeError
  ∧ slept (_process_batches env_two_keys 3 two_keys_pending).2 = [10].
Proof. repeat apply conj; vm_compute; reflexivity. Qed.

(** C4 at a refused batch that is not attempted again. The limiter allows
    one alert an hour for each camera and one for [cam1] was sent at
    0:00:00. At the pass of 0:59:55 the five events of [cam1] are due and
    the front door is not; the limiter refuses [cam1] and the batch stays
    as it was. At the next pass, at 1:00:05, both keys are due, and the
    limiter would now admit [cam1]: on its own the flush of [cam1] sends the
    five events. But the pass meets the front door first, its flush raises
    [AttributeError] ([strftime] called on the text of [dateTime]), and the
    pass ends there: the limiter is not asked about [cam1] again, nothing
    is sent, and the loop of [_process_batches] ends after its second
    pause, so that the refused batch stays pending for good. *)
Theorem refused_batch_not_reattempted :
  od_keys (pending refused_key_pending) = [front_door_key; cam1_key]
  ∧ length (default [] (od_get cam1_key (pending refused_key_pending)))
    = 5%nat
  ∧ camera_window refused_key_pending "+15550100" "cam1" = [seconds 0]
  ∧ clock env_camera_ceiling (clock_reads refused_key_pending)
    = seconds 3595
  ∧ flush_due env_camera_ceiling (seconds 3595) refused_key_pending
      front_door_key = false
  ∧ flush_due env_camera_ceiling (seconds 3595) refused_key_pending cam1_key
    = true
  ∧ (can_send env_camera_ceiling "+15550100" "cam1"
       (rate_config env_camera_ceiling) (tick_clock refused_key_pending)).1
    = Ok false
  ∧ (process_batches_pass env_camera_ceiling refused_key_pending).1 = Ok tt
  ∧ outbox refused_key_kept = []
  ∧ od_get cam1_key (pending refused_key_kept)
    = od_get cam1_key (pending refused_key_pending)
  ∧ first_event_time refused_key_kept !! cam1_key = Some (seconds 3590)
  ∧ clock env_camera_ceiling (clock_reads refused_key_kept) = seconds 3605
  ∧ flush_due env_camera_ceiling (seconds 3605) refused_key_kept
      front_door_key = true
  ∧ flush_due env_camera_ceiling (seconds 3605) refused_key_kept cam1_key
    = true
  ∧ (flush_if_due env_camera_ceiling 300 5 (seconds 3605) cam1_key
       (tick_clock refused_key_kept)).1 = Ok tt
  ∧ outbox (flush_if_due env_camera_ceiling 300 5 (seconds 3605) cam1_key
              (tick_clock refused_key_kept)).2
    = [("+15550100",
        "🚨 cam1: 5 alerts" +:+ nl +:+ "• motion at 00:59" +:+ nl
        +:+ "• motion at 00:59" +:+ nl +:+ "• motion at 00:59" +:+ nl)]
  ∧ (process_batches_pass env_camera_ceiling refused_key_kept).1
    = Raise AttributeError
  ∧ outbox (process_batches_pass env_camera_ceiling refused_key_kept).2 = []
  ∧ clock_reads (process_batches_pass env_camera_ceiling refused_key_kept).2
    = (clock_reads refused_key_kept + 3)%nat
  ∧ od_get cam1_key
      (pending (process_batches_pass env_camera_ceiling refused_key_kept).2)
    = od_get cam1_key (pending refused_key_pending)
  ∧ (_process_batches env_camera_ceiling 4 refused_key_pending).1
    = Raise AttributeError
  ∧ slept (_process_batches env_camera_ceiling 4 refused_key_pending).2
    = [10; 10]
  ∧ outbox (_process_batches env_camera_ceiling 4 refused_key_pending).2
    = [].
Proof. repeat apply conj; vm_compute; reflexivity. Qed.
